(** * NEJM image-challenge tools: a shallow embedding and its properties

    The development follows the Python sources
    [batch_download.py], [nejm_downloader.py], [json2latex.py] and
    [nejm_image_caption.py].  Python values are modelled as follows:

    - a [str] is a list of Unicode code points ([N]);
    - a [dict] is an insertion-ordered association list with unique keys;
    - a JSON document is a value of the inductive type [json];
    - an exception is a constructor of [exn], carried by [result];
    - files are seen through [json.load]: a file either holds a JSON
      document or text that [json.load] rejects. *)

From Stdlib Require Import String Ascii DecimalString.
From Stdlib Require Import ZArith NArith QArith Qround Lia Lqa Bool List.
Import ListNotations.

Local Open Scope Z_scope.
Local Open Scope list_scope.

(* ================================================================= *)
(** ** Python strings, dictionaries and exceptions                    *)
(* ================================================================= *)

Module Py.

(** A code point. *)
Definition char := N.

(** A Python [str]. *)
Definition str := list char.

(** A literal: each character of the Rocq string is one code point. *)
Definition lit (s : string) : str :=
  map N_of_ascii (list_ascii_of_string s).
Arguments lit : simpl never.

Definition LF : char := 10%N.
Definition CR : char := 13%N.

Definition str_eq_dec : forall a b : str, {a = b} + {a <> b} :=
  list_eq_dec N.eq_dec.

Definition str_eqb (a b : str) : bool :=
  if str_eq_dec a b then true else false.

(** [x in xs] for a list of strings. *)
Definition str_in (x : str) (xs : list str) : bool :=
  existsb (str_eqb x) xs.

(** [len(s)] as an integer. *)
Definition len {A} (l : list A) : Z := Z.of_nat (length l).

(** [str.isspace] on one code point; also the class [\s] of [re]. *)
Definition is_space (c : char) : bool :=
  ((9 <=? c) && (c <=? 13) || (28 <=? c) && (c <=? 32)
   || (c =? 133) || (c =? 160) || (c =? 5760)
   || (8192 <=? c) && (c <=? 8202)
   || (c =? 8232) || (c =? 8233) || (c =? 8239) || (c =? 8287)
   || (c =? 12288))%N.

(** The line boundaries of [str.splitlines], [\r] apart. *)
Definition is_linebreak (c : char) : bool :=
  ((10 <=? c) && (c <=? 12) || (28 <=? c) && (c <=? 30)
   || (c =? 133) || (c =? 8232) || (c =? 8233))%N.

Fixpoint lstrip (s : str) : str :=
  match s with
  | c :: r => if is_space c then lstrip r else s
  | [] => []
  end.

(** [s.strip()]. *)
Definition strip (s : str) : str :=
  rev (lstrip (rev (lstrip s))).

(** [s.startswith(p)]. *)
Fixpoint startswith (s p : str) : bool :=
  match p, s with
  | [], _ => true
  | a :: p', b :: s' => (a =? b)%N && startswith s' p'
  | _ :: _, [] => false
  end.

(** [s.endswith(p)]. *)
Definition endswith (s p : str) : bool :=
  startswith (rev s) (rev p).

(** [p in s] for two strings. *)
Fixpoint contains (p s : str) : bool :=
  startswith s p ||
  match s with
  | [] => false
  | _ :: r => contains p r
  end.

(** [s.replace(old, new)] for a non-empty [old]: occurrences are
    replaced from the left and do not overlap.  [skip] counts the
    characters of the current occurrence still to be dropped. *)
Fixpoint replace_from (old new : str) (skip : nat) (s : str) : str :=
  match s with
  | [] => []
  | c :: r =>
      match skip with
      | S k => replace_from old new k r
      | O =>
          if startswith s old
          then new ++ replace_from old new (pred (length old)) r
          else c :: replace_from old new O r
      end
  end.

Definition replace (old new s : str) : str :=
  replace_from old new O s.

(** [sep.join(parts)]. *)
Fixpoint join (sep : str) (parts : list str) : str :=
  match parts with
  | [] => []
  | [p] => p
  | p :: rest => p ++ sep ++ join sep rest
  end.

(** [s.splitlines()]: [cur] is the line being read, in reverse. *)
Fixpoint splitlines_from (cur : str) (started : bool) (s : str) : list str :=
  match s with
  | [] => if started then [rev cur] else []
  | c :: r =>
      if (c =? CR)%N then
        match r with
        | d :: r' =>
            if (d =? LF)%N
            then rev cur :: splitlines_from [] false r'
            else rev cur :: splitlines_from [] false r
        | [] => [rev cur]
        end
      else if is_linebreak c then rev cur :: splitlines_from [] false r
      else splitlines_from (c :: cur) true r
  end.

Definition splitlines (s : str) : list str :=
  splitlines_from [] false s.

(** Decimal text of an integer, as [str(n)] gives it. *)
Definition str_of_Z (z : Z) : str :=
  lit (NilEmpty.string_of_int (Z.to_int z)).

(** *** Dictionaries *)

Definition dict (V : Type) := list (str * V).

Fixpoint dget {V} (d : dict V) (k : str) : option V :=
  match d with
  | [] => None
  | (k', v) :: r => if str_eqb k k' then Some v else dget r k
  end.

(** [k in d]. *)
Definition dmem {V} (k : str) (d : dict V) : bool :=
  match dget d k with Some _ => true | None => false end.

(** [d[k] = v]: an existing key keeps its place, a new one goes last. *)
Fixpoint dset {V} (k : str) (v : V) (d : dict V) : dict V :=
  match d with
  | [] => [(k, v)]
  | (k', v') :: r =>
      if str_eqb k k' then (k', v) :: r else (k', v') :: dset k v r
  end.

Definition keys {V} (d : dict V) : list str := map fst d.
Definition values {V} (d : dict V) : list V := map snd d.

(** *** Exceptions *)

Inductive exn : Type :=
| JSONDecodeError
| FileNotFoundError
| AttributeError
| OverflowError
| ZeroDivisionError
| OSError.

Inductive result (A : Type) : Type :=
| Ok (a : A)
| Raise (e : exn).
Arguments Ok {A} a.
Arguments Raise {A} e.

Definition bind {A B} (r : result A) (k : A -> result B) : result B :=
  match r with
  | Ok a => k a
  | Raise e => Raise e
  end.

End Py.

Import Py.

Notation "x <- c ;; k" := (bind c (fun x => k))
  (at level 61, c at next level, right associativity).

(* ================================================================= *)
(** ** JSON documents                                                 *)
(* ================================================================= *)

Module Json.

(** What [json.load] returns.  Numbers are integers here; a JSON number
    with a fraction is not represented. *)
#[warnings="-register-all"]
Inductive json : Type :=
| JNull
| JBool (b : bool)
| JInt (z : Z)
| JStr (s : str)
| JList (l : list json)
| JDict (d : list (str * json)).

(** Python truth value: [None], [False], [0], [''], [[]] and [{}] are
    false. *)
Definition truthy (j : json) : bool :=
  match j with
  | JNull => false
  | JBool b => b
  | JInt z => negb (z =? 0)
  | JStr s => match s with [] => false | _ => true end
  | JList l => match l with [] => false | _ => true end
  | JDict d => match d with [] => false | _ => true end
  end.

(** [repr(x)].  The text of a nested string is quoted without escape
    sequences; for the scalars [py_str] below is exact. *)
Fixpoint py_repr (j : json) : str :=
  match j with
  | JNull => lit "None"
  | JBool true => lit "True"
  | JBool false => lit "False"
  | JInt z => str_of_Z z
  | JStr s => lit "'" ++ s ++ lit "'"
  | JList l => lit "[" ++ join (lit ", ") (map py_repr l) ++ lit "]"
  | JDict d =>
      lit "{" ++
      join (lit ", ")
        (map (fun kv => let '(k, v) := kv in
                        lit "'" ++ k ++ lit "': " ++ py_repr v) d)
      ++ lit "}"
  end.

(** [str(x)]. *)
Definition py_str (j : json) : str :=
  match j with
  | JStr s => s
  | _ => py_repr j
  end.

(** [x.get(key)]: only a dict has the method. *)
Definition get (x : json) (key : str) : result json :=
  match x with
  | JDict d => Ok (match dget d key with Some v => v | None => JNull end)
  | _ => Raise AttributeError
  end.

(** [d.get(key)] on a value known to be a dict. *)
Definition dict_get (d : dict json) (key : str) : json :=
  match dget d key with Some v => v | None => JNull end.

(** An [Optional[str]] as a JSON value. *)
Definition of_option (o : option str) : json :=
  match o with Some s => JStr s | None => JNull end.

(** A file as [json.load] sees it: a document, or text that makes
    [json.load] raise [JSONDecodeError]. *)
Inductive file : Type :=
| JsonDoc (j : json)
| NotJson.

(** The files that exist, by path. *)
Definition filesystem := str -> option file.

Definition write_file (fs : filesystem) (path : str) (f : file)
    : filesystem :=
  fun p => if str_eqb p path then Some f else fs p.

End Json.

Import Json.

(* ================================================================= *)
(** ** batch_download.py                                              *)
(* ================================================================= *)

Module Batch.

(** *** Dates *)

(** A naive [datetime]: microseconds since 0001-01-01 00:00:00. *)
Abbreviation datetime := Z (only parsing).

Definition US_PER_DAY : Z := 86400000000.

(** [datetime.max] is 9999-12-31 23:59:59.999999, the last microsecond
    of day 3652059. *)
Definition DATETIME_MAX : Z := 3652059 * US_PER_DAY - 1.

Definition valid_datetime (t : datetime) : Prop :=
  0 <= t <= DATETIME_MAX.

(** [timedelta(weeks=1)]. *)
Definition ONE_WEEK : Z := 7 * US_PER_DAY.

(** [(b - a).days]: the difference rounded down to whole days. *)
Definition delta_days (a b : datetime) : Z := (b - a) / US_PER_DAY.

(** [t + delta]: a result outside the range of [datetime] raises. *)
Definition add_timedelta (t : datetime) (delta : Z) : result datetime :=
  if (0 <=? t + delta) && (t + delta <=? DATETIME_MAX)
  then Ok (t + delta)
  else Raise OverflowError.

(** The [while] loop of [generate_date_range]; [None] is an exhausted
    fuel. *)
Fixpoint generate_loop (fuel : nat) (dates : list datetime)
    (current_date end_date : datetime) : option (result (list datetime)) :=
  match fuel with
  | O => None
  | S fuel' =>
      if current_date <=? end_date then
        let dates := dates ++ [current_date] in
        match add_timedelta current_date ONE_WEEK with
        | Ok next => generate_loop fuel' dates next end_date
        | Raise e => Some (Raise e)
        end
      else Some (Ok dates)
  end.

(** Enough iterations for the loop between two dates. *)
Definition loop_fuel (start_date end_date : datetime) : nat :=
  S (S (Z.to_nat ((end_date - start_date) / ONE_WEEK))).

Definition generate_date_range (start_date end_date : datetime)
    : option (result (list datetime)) :=
  generate_loop (loop_fuel start_date end_date) [] start_date end_date.

(** *** The persisted collection *)

(** The loop of [load_existing_data] that fills [lookup]. *)
Fixpoint build_lookup (lookup : dict json) (data : list json)
    : result (dict json) :=
  match data with
  | [] => Ok lookup
  | item :: rest =>
      item_id <- get item (lit "id") ;;
      build_lookup (dset (py_str item_id) item lookup) rest
  end.

(** [load_existing_data]: the handler catches [JSONDecodeError] and
    [FileNotFoundError] only. *)
Definition load_existing_data (fs : filesystem) (json_file : str)
    : result (dict json * list json) :=
  match fs json_file with
  | None => Ok ([], [])
  | Some NotJson => Ok ([], [])
  | Some (JsonDoc data) =>
      match data with
      | JList items =>
          lookup <- build_lookup [] items ;;
          Ok (lookup, items)
      | _ => Ok ([], [])
      end
  end.

(** [merge_challenge_data]: [downloaded] is updated and returned. *)
Definition merge_challenge_data (downloaded : dict json)
    (existing_data : dict json) : result (dict json) :=
  let challenge_id := py_str (dict_get downloaded (lit "id")) in
  match dget existing_data challenge_id with
  | Some existing =>
      answer <- get existing (lit "answer") ;;
      let downloaded :=
        if truthy answer then dset (lit "answer") answer downloaded
        else downloaded in
      image <- get existing (lit "image") ;;
      let downloaded :=
        if truthy image then dset (lit "image") image downloaded
        else downloaded in
      Ok downloaded
  | None => Ok downloaded
  end.

(** What [NEJMDownloader.download_question] hands back. *)
Record page : Type := {
  pg_question : option str;
  pg_options : dict str;
  pg_image : option str
}.

(** The state a run acts on.  [files] are the collection files, as
    [json.load] sees them; the slide deck and the image files that the
    downloader writes are not among them.  [requests] is a log of the
    calls of [download_challenge], oldest first: one entry, the id, per
    call, whatever number of pages the downloader fetches for it. *)
Record world : Type := {
  files : filesystem;
  requests : list str
}.

Section Run.

(** [date.strftime("%Y%m%d")]. *)
Variable strftime_Ymd : datetime -> str.

(** [datetime.strptime(id, "%Y%m%d").strftime("%B %d,%Y")], [None]
    when [strptime] raises. *)
Variable long_date : str -> option str.

(** The site: the answer to a request for an id, given the requests
    already made. *)
Variable download_question : list str -> str -> result page.

Definition date_to_challenge_id (date : datetime) : str :=
  strftime_Ymd date.

(** [download_challenge]: every exception is swallowed.  The call is
    entered in the log; the collection files are not touched. *)
Definition download_challenge (w : world) (challenge_id : str)
    : world * option (dict json) :=
  let w' := {| files := files w;
               requests := requests w ++ [challenge_id] |} in
  match download_question (requests w) challenge_id with
  | Raise _ => (w', None)
  | Ok result =>
      if negb (truthy (of_option (pg_question result)))
         || negb (truthy (JDict (map (fun kv => (fst kv, JStr (snd kv)))
                                     (pg_options result))))
      then (w', None)
      else
        match long_date challenge_id with
        | None => (w', None)
        | Some formatted_date =>
            (w', Some [ (lit "id", JStr challenge_id);
                        (lit "date", JStr formatted_date);
                        (lit "question", of_option (pg_question result));
                        (lit "options",
                         JDict (map (fun kv => (fst kv, JStr (snd kv)))
                                    (pg_options result)));
                        (lit "image", of_option (pg_image result));
                        (lit "answer", JNull) ])
        end
  end.

(** The first loop of [batch_download]: which ids are fetched. *)
Fixpoint select_downloads (existing_data_lookup : dict json)
    (challenge_ids : list str) (to_download : list str) (skipped : Z)
    : result (list str * Z) :=
  match challenge_ids with
  | [] => Ok (to_download, skipped)
  | challenge_id :: rest =>
      match dget existing_data_lookup challenge_id with
      | Some existing =>
          image <- get existing (lit "image") ;;
          if truthy image
          then select_downloads existing_data_lookup rest
                 to_download (skipped + 1)
          else select_downloads existing_data_lookup rest
                 (to_download ++ [challenge_id]) skipped
      | None =>
          select_downloads existing_data_lookup rest
            (to_download ++ [challenge_id]) skipped
      end
  end.

(** The second loop: fetch, merge, collect. *)
Fixpoint process_downloads (w : world) (existing_data_lookup : dict json)
    (to_download : list str) (new_challenges : list (dict json))
    : result (world * list (dict json)) :=
  match to_download with
  | [] => Ok (w, new_challenges)
  | challenge_id :: rest =>
      let (w', downloaded) := download_challenge w challenge_id in
      match downloaded with
      | Some d =>
          merged <- merge_challenge_data d existing_data_lookup ;;
          process_downloads w' existing_data_lookup rest
            (new_challenges ++ [merged])
      | None =>
          process_downloads w' existing_data_lookup rest new_challenges
      end
  end.

(** The challenges a run collects, with the world after the fetches. *)
Definition collect (w : world) (dates : list datetime)
    (existing_file : str)
    : result (world * list json * list (dict json)) :=
  loaded <- load_existing_data (files w) existing_file ;;
  let '(existing_data_lookup, existing_data_list) := loaded in
  let challenge_ids := map date_to_challenge_id dates in
  selected <- select_downloads existing_data_lookup challenge_ids [] 0 ;;
  fetched <- process_downloads w existing_data_lookup (fst selected) [] ;;
  Ok (fst fetched, existing_data_list, snd fetched).

(** [batch_download].  The write is taken to succeed. *)
Definition batch_download (w : world) (dates : list datetime)
    (output_file existing_file : str) : result world :=
  match dates with
  | [] => Ok w
  | _ =>
      run <- collect w dates existing_file ;;
      let '(w', existing_data_list, new_challenges) := run in
      match new_challenges with
      | [] => Ok w'
      | _ =>
          let all_challenges :=
            existing_data_list ++ map JDict new_challenges in
          Ok {| files := write_file (files w') output_file
                           (JsonDoc (JList all_challenges));
                requests := requests w' |}
      end
  end.

End Run.

End Batch.

(* ================================================================= *)
(** ** nejm_downloader.py                                             *)
(* ================================================================= *)

Module Downloader.

(** *** The parsed page *)

(** A parsed page as BeautifulSoup presents it: text and elements with
    a tag name, the values of the class attribute and children. *)
#[warnings="-register-all"]
Inductive node : Type :=
| Text (s : str)
| Element (name : str) (classes : list str) (children : list node).

(** [tag.get_text()]: the text below a node, in document order. *)
Fixpoint get_text (n : node) : str :=
  match n with
  | Text s => s
  | Element _ _ children => concat (map get_text children)
  end.

Definition children_of (n : node) : list node :=
  match n with
  | Text _ => []
  | Element _ _ children => children
  end.

(** Everything below a node, in document order. *)
Fixpoint descendants (n : node) : list node :=
  match n with
  | Text _ => []
  | Element _ _ children =>
      flat_map (fun c => c :: descendants c) children
  end.

Definition has_name (name : str) (n : node) : bool :=
  match n with
  | Text _ => false
  | Element nm _ _ => str_eqb nm name
  end.

Definition has_class (class_ : str) (n : node) : bool :=
  match n with
  | Text _ => false
  | Element _ classes _ => str_in class_ classes
  end.

(** [tag.find(name, class_=c)]. *)
Definition find (name class_ : str) (n : node) : option node :=
  List.find (fun d => has_name name d && has_class class_ d)
            (descendants n).

(** [tag.find_all(name, class_=c)]. *)
Definition find_all (name class_ : str) (n : node) : list node :=
  filter (fun d => has_name name d && has_class class_ d)
         (descendants n).

(** [tag.find_all(name, recursive=False)]. *)
Definition find_all_children (name : str) (n : node) : list node :=
  filter (has_name name) (children_of n).

(** [d.get('class')] as a truth value. *)
Definition has_classes (n : node) : bool :=
  match n with
  | Element _ (_ :: _) _ => true
  | _ => false
  end.

Definition option_keys : list str :=
  [lit "A"; lit "B"; lit "C"; lit "D"; lit "E"; lit "F"].

(** *** Strategy A *)

(** The loop over the option spans; [idx] is the position [enumerate]
    gives the span. *)
Fixpoint html_options_loop (idx : nat) (option_spans : list node)
    (options : dict str) : dict str :=
  match option_spans with
  | [] => options
  | span :: rest =>
      match nth_error option_keys idx with
      | None => options
      | Some key =>
          let option_text := strip (get_text span) in
          let options :=
            if (5 <? len option_text)
               && negb (str_in option_text (values options))
            then dset key option_text options
            else options in
          html_options_loop (S idx) rest options
      end
  end.

Definition _extract_question_and_options_html (soup : node)
    : option str * dict str :=
  match find (lit "div") (lit "image-challenge-qa_content") soup with
  | None => (None, [])
  | Some challenge_content =>
  match find (lit "div") (lit "image-challenge-qa_right")
             challenge_content with
  | None => (None, [])
  | Some right_area =>
      let question_text :=
        match find (lit "div") (lit "image-challenge-qa_question")
                   right_area with
        | Some question_div => Some (strip (get_text question_div))
        | None =>
            let divs := filter has_classes
                          (find_all_children (lit "div") right_area) in
            match nth_error divs 1 with
            | Some d => Some (strip (get_text d))
            | None => None
            end
        end in
      match question_text with
      | None => (None, [])
      | Some question_text =>
          if len question_text <? 5 then (None, [])
          else
            match find (lit "div") (lit "image-challenge-qa_answers")
                       right_area with
            | None => (None, [])
            | Some answers_container =>
                let option_spans :=
                  find_all (lit "span") (lit "radio--primary-label-text")
                           answers_container in
                (Some question_text,
                 html_options_loop 0 option_spans [])
            end
      end
  end
  end.

(** *** Strategy B *)

(** After a newline, the length of the rest of a match of
    [\n\s*\n+]: the run of white space up to its last newline; [0]
    when the run holds no newline. *)
Fixpoint separator_rest (s : str) (pos best : nat) : nat :=
  match s with
  | c :: r =>
      if is_space c
      then separator_rest r (S pos) (if (c =? LF)%N then S pos else best)
      else best
  | [] => best
  end.

(** [re.split(r"\n\s*\n+", s)]: [cur] is the piece being read, in
    reverse, and [skip] the characters of the current separator still
    to be dropped. *)
Fixpoint re_split_from (cur : str) (skip : nat) (s : str) : list str :=
  match s with
  | [] => [rev cur]
  | c :: r =>
      match skip with
      | S k => re_split_from cur k r
      | O =>
          if (c =? LF)%N then
            match separator_rest r 0 0 with
            | O => re_split_from (c :: cur) O r
            | S k => rev cur :: re_split_from [] (S k) r
            end
          else re_split_from (c :: cur) O r
      end
  end.

Definition split_paragraphs (s : str) : list str :=
  re_split_from [] O s.

Definition clinical_keywords : list str :=
  [lit "patient"; lit "presented"; lit "symptoms"; lit "diagnosed";
   lit "examination"; lit "year"; lit "old"; lit "woman"; lit "man";
   lit "history"].

Definition noise_lines : list str :=
  [lit "try again!"; lit "submit"; lit "back to image challenge";
   lit "see how others chose"; lit "next challenge"].

Definition explanation_phrases : list str :=
  [lit "this is"; lit "this type"; lit "characterized by"; lit "is an";
   lit "is a"; lit "can be"; lit "may be"; lit "results in"].

Definition navigation_phrases : list str :=
  [lit "more image challenges"; lit "total responses";
   lit "see how others"].

Definition feedback_phrases : list str :=
  [lit "try again"; lit "that is not"; lit "correct answer"].

Section TextStrategy.

(** [str.lower]; Unicode case mapping is not spelled out. *)
Variable lower : str -> str.

(** [any(phrase in line.lower() for phrase in phrases)]. *)
Definition mentions (phrases : list str) (line : str) : bool :=
  existsb (fun phrase => contains phrase (lower line)) phrases.

(** The first paragraph of more than 50 characters with a clinical
    keyword, and its index. *)
Fixpoint find_vignette (i : nat) (paragraphs : list str)
    : option (str * nat) :=
  match paragraphs with
  | [] => None
  | para :: rest =>
      if (50 <? len para)
         && existsb (fun keyword => contains (lower keyword) (lower para))
                    clinical_keywords
      then Some (para, i)
      else find_vignette (S i) rest
  end.

(** The loop that counts lines, with its [continue] and [break]. *)
Fixpoint count_lines (lines : list str) (line_counts : dict Z)
    (line_order : list str) : dict Z * list str :=
  match lines with
  | [] => (line_counts, line_order)
  | line :: rest =>
      if endswith line (lit "%")
         || str_in (lower line) noise_lines
         || (len line <? 5)
      then count_lines rest line_counts line_order
      else if mentions explanation_phrases line
      then (line_counts, line_order)
      else if mentions navigation_phrases line
      then (line_counts, line_order)
      else
        let '(line_counts, line_order) :=
          if dmem line line_counts
          then (line_counts, line_order)
          else (dset line 0 line_counts, line_order ++ [line]) in
        let count :=
          match dget line_counts line with Some c => c | None => 0 end in
        count_lines rest (dset line (count + 1) line_counts) line_order
  end.

(** The loop that labels the repeated lines. *)
Fixpoint text_options_loop (line_order : list str) (line_counts : dict Z)
    (options : dict str) (option_idx : nat) : dict str :=
  match line_order with
  | [] => options
  | line :: rest =>
      match nth_error option_keys option_idx with
      | None => options
      | Some key =>
          let count :=
            match dget line_counts line with Some c => c | None => 0 end in
          if (2 <=? count) && (15 <? len line) then
            if negb (mentions feedback_phrases line)
            then text_options_loop rest line_counts
                   (dset key line options) (S option_idx)
            else text_options_loop rest line_counts options option_idx
          else text_options_loop rest line_counts options option_idx
      end
  end.

Definition _extract_question_and_options_text (full_text : str)
    : option str * dict str :=
  let normalized := replace [CR] [LF] full_text in
  let paragraphs :=
    filter (fun p => negb (str_eqb p []))
           (map strip (split_paragraphs normalized)) in
  match paragraphs with
  | [] => (None, [])
  | _ =>
      let found :=
        match find_vignette 0 paragraphs with
        | Some (para, i) => Some (para, i)
        | None =>
            match List.find (fun para => 50 <? len para) paragraphs with
            | Some para => Some (para, O)
            | None => None
            end
        end in
      match found with
      | None => (None, [])
      | Some (question_text, q_start_idx) =>
          let remaining_text :=
            join [LF; LF] (skipn (q_start_idx + 1) paragraphs) in
          let lines :=
            filter (fun line => negb (str_eqb line []))
                   (map strip (splitlines remaining_text)) in
          let '(line_counts, line_order) := count_lines lines [] [] in
          (Some question_text,
           text_options_loop line_order line_counts [] 0)
      end
  end.

(** [download_questions], given the parsed page and its visible text:
    strategy A first, strategy B when it gives no question or no
    option. *)
Definition download_questions (soup : node) (text : str)
    : option str * dict str :=
  let '(question, options) := _extract_question_and_options_html soup in
  match question, options with
  | Some (_ :: _), _ :: _ => (question, options)
  | _, _ => _extract_question_and_options_text text
  end.

End TextStrategy.

(** A model of [str.lower] for the capitals of ASCII and Latin-1,
    other code points unchanged. *)
Definition lower_latin (s : str) : str :=
  map (fun c =>
         if ((65 <=? c) && (c <=? 90)
             || (192 <=? c) && (c <=? 222) && negb (c =? 215))%N
         then (c + 32)%N else c) s.

End Downloader.

(* ================================================================= *)
(** ** json2latex.py                                                  *)
(* ================================================================= *)

Module Latex.

Definition MAX_IMAGE_HEIGHT : str := lit "0.50\textheight".
Definition MAX_IMAGE_WIDTH : str := lit "0.90\textwidth".

(** The characters [escape_latex] keeps. *)
Definition kept (code : char) : bool :=
  negb (((code <? 32) && negb ((code =? 10) || (code =? 9)))
        || ((128 <=? code) && (code <=? 159))
        || ((768 <=? code) && (code <=? 879)))%N.

Definition DQUOTE : str := [34%N].

(** The replacement pairs, in order.  In the source the two entries
    for the single quotation marks are written with three apostrophes
    each, so they read as one entry whose first component is the text
    between them. *)
Definition replacements : list (str * str) :=
  [ (lit "\", lit "\textbackslash{}");
    (lit "&", lit "\&");
    (lit "%", lit "\%");
    (lit "$", lit "\$");
    (lit "#", lit "\#");
    (lit "_", lit "\_");
    (lit "{", lit "\{");
    (lit "}", lit "\}");
    (lit "~", lit "\textasciitilde{}");
    (lit "^", lit "\textasciicircum{}");
    (lit ", r" ++ DQUOTE ++ lit "'" ++ DQUOTE
       ++ lit "),  # Right single quotation mark" ++ [LF]
       ++ lit "        (",
     lit "'");
    (DQUOTE, DQUOTE);
    (DQUOTE, DQUOTE);
    ([8211%N], lit "-");
    ([8212%N], lit "-");
    ([8722%N], lit "-") ].

Definition escape_latex (text : str) : str :=
  match text with
  | [] => text
  | _ =>
      fold_left (fun text pair => replace (fst pair) (snd pair) text)
                replacements (filter kept text)
  end.

(** A question record of the collection.  A field that is [None] is
    absent from the record (or [null], for [q_image] and [q_answer]). *)
Record question : Type := {
  q_id : option json;
  q_date : option str;
  q_question : option str;
  q_options : option (dict str);
  q_image : option str;
  q_answer : option str
}.

Definition options_of (q : question) : dict str :=
  match q_options q with Some d => d | None => [] end.

Definition rendered_keys : list str :=
  [lit "A"; lit "B"; lit "C"; lit "D"; lit "E"].

Local Open Scope Q_scope.

(** [estimate_text_height]; floating point is read as exact rational
    arithmetic. *)
Definition estimate_text_height (question_data : question)
    (has_answer : bool) : Q :=
  let BASELINESKIP_PT := 66 # 5 in
  let header_height := BASELINESKIP_PT * (6 # 5) in
  let date_height := BASELINESKIP_PT + 6 in
  let question_text :=
    match q_question question_data with Some t => t | None => [] end in
  let question_lines := Z.max 1 (len question_text / 80 + 1) in
  let question_height :=
    inject_Z question_lines * BASELINESKIP_PT + 12 in
  let options_header := BASELINESKIP_PT in
  let options := options_of question_data in
  let total_option_lines :=
    fold_left
      (fun total key =>
         match dget options key with
         | Some option_text =>
             (total + Z.max 1 (len option_text / 75 + 1))%Z
         | None => total
         end)
      rendered_keys 0%Z in
  let options_height := inject_Z total_option_lines * BASELINESKIP_PT in
  let answer_height :=
    if has_answer
       && match q_answer question_data with
          | Some (_ :: _) => true
          | _ => false
          end
    then BASELINESKIP_PT + 12 else 0 in
  let image_header := BASELINESKIP_PT in
  header_height + date_height + question_height + options_header
  + options_height + answer_height + image_header.

(** An image file as PIL sees it. *)
Inductive image_file : Type :=
| Unreadable
| Picture (width height : N).

(** The image files that exist, by path. *)
Definition image_store := str -> option image_file.

(** [max(a, b)] and [min(a, b)] of two numbers, as Python picks. *)
Definition py_max (a b : Q) : Q := if Qlt_le_dec a b then b else a.
Definition py_min (a b : Q) : Q := if Qlt_le_dec b a then b else a.

(** Rounding to the nearest integer, ties to even. *)
Definition round_half_even (x : Q) : Z :=
  let f := Qfloor x in
  match Qcompare (x - inject_Z f) (1 # 2) with
  | Lt => f
  | Gt => (f + 1)%Z
  | Eq => if Z.even f then f else (f + 1)%Z
  end.

(** [round(x, 2)]. *)
Definition round2 (x : Q) : Q :=
  inject_Z (round_half_even (x * 100)) / 100.

Definition DEFAULT_SCALE : Q := 1.

(** [calculate_optimal_scale]: a missing image, and any exception
    while the image is read, give [DEFAULT_SCALE]. *)
Definition calculate_optimal_scale (images : image_store)
    (image_path : str) (text_height_pt : Q) (question_id : json) : Q :=
  let TEXTHEIGHT_PT := 3252 # 5 in
  let TEXTWIDTH_PT := 2349 # 5 in
  let MAX_IMAGE_HEIGHT_RATIO := 3 # 5 in
  let MAX_IMAGE_WIDTH_RATIO := 19 # 20 in
  match images image_path with
  | None => DEFAULT_SCALE
  | Some Unreadable => DEFAULT_SCALE
  | Some (Picture img_width_px img_height_px) =>
      if (img_height_px =? 0)%N then DEFAULT_SCALE
      else
        let aspect_ratio :=
          inject_Z (Z.of_N img_width_px) / inject_Z (Z.of_N img_height_px) in
        let max_height_pt := TEXTHEIGHT_PT * MAX_IMAGE_HEIGHT_RATIO in
        let max_width_pt := TEXTWIDTH_PT * MAX_IMAGE_WIDTH_RATIO in
        let target_height_pt := max_height_pt in
        let target_width_pt := target_height_pt * aspect_ratio in
        let target_width_pt :=
          if Qlt_le_dec max_width_pt target_width_pt
          then max_width_pt else target_width_pt in
        let scale := target_width_pt / TEXTWIDTH_PT in
        let scale := py_max (3 # 10) (py_min (19 # 20) scale) in
        round2 scale
  end.

Local Close Scope Q_scope.

(** Two digits of a number below 100. *)
Definition two_digits (z : Z) : str :=
  if z <? 10 then lit "0" ++ str_of_Z z else str_of_Z z.

(** [str(scale)] for a scale with at most two decimals. *)
Definition str_of_scale (scale : Q) : str :=
  let hundredths := Qfloor (scale * 100) in
  let whole := hundredths / 100 in
  let frac := hundredths mod 100 in
  str_of_Z whole ++ lit "." ++
  (if frac mod 10 =? 0 then str_of_Z (frac / 10) else two_digits frac).

(** The [\item] line of one option. *)
Definition item_line (option_key option_text : str) : str :=
  lit "\item[" ++ option_key ++ lit ".] " ++ escape_latex option_text.

(** The loop over the option keys: what it appends to
    [latex_content]. *)
Definition append_options (latex_content : list str)
    (options : dict str) : list str :=
  fold_left
    (fun latex_content option_key =>
       match dget options option_key with
       | Some option_text =>
           latex_content ++ [item_line option_key option_text]
       | None => latex_content
       end)
    rendered_keys latex_content.

(** The lines between [\begin{enumerate}] and [\end{enumerate}]. *)
Definition options_block (q : question) : list str :=
  append_options [] (options_of q).

(** The lines for the image of a question.  [image_scales] maps an
    id to the text [str] gives for its scale. *)
Definition image_lines (images : image_store) (image_scales : dict str)
    (q : question) (question_id : json) : list str :=
  match q_image q with
  | Some ((_ :: _) as image_path) =>
      match images image_path with
      | Some _ =>
          let scale :=
            match dget image_scales (py_str question_id) with
            | Some scale => scale
            | None =>
                let has_answer :=
                  match q_answer q with Some _ => true | None => false end in
                let text_height_pt := estimate_text_height q has_answer in
                str_of_scale
                  (calculate_optimal_scale images image_path
                     text_height_pt question_id)
            end in
          [ lit "\textbf{Image:}";
            lit "\begin{center}";
            lit "\includegraphics[width=" ++ scale
              ++ lit "\textwidth,height=" ++ MAX_IMAGE_HEIGHT
              ++ lit ",width=" ++ MAX_IMAGE_WIDTH
              ++ lit ",keepaspectratio]{"
              ++ replace (lit "\") (lit "/") image_path ++ lit "}";
            lit "\end{center}";
            lit "\vspace{12pt}" ]
      | None =>
          [ lit "\textit{[Image not found: " ++ escape_latex image_path
              ++ lit "]}";
            lit "\vspace{12pt}" ]
      end
  | _ => []
  end.

(** What one turn of the loop over the questions appends. *)
Definition question_block (images : image_store) (image_scales : dict str)
    (idx : Z) (q : question) : list str :=
  let question_id :=
    match q_id q with
    | Some i => i
    | None => JStr (lit "q" ++ str_of_Z idx)
    end in
  let date :=
    match q_date q with Some d => d | None => lit "Unknown date" end in
  let question_text :=
    match q_question q with Some t => t | None => [] end in
  (if 1 <? idx then [lit "\newpage"; []] else [])
  ++ [ lit "\section*{Question " ++ str_of_Z idx ++ lit " (ID: "
         ++ escape_latex (py_str question_id) ++ lit ")}";
       lit "\textbf{Date: }" ++ escape_latex date;
       lit "\vspace{6pt}";
       [];
       escape_latex question_text;
       lit "\vspace{12pt}";
       [];
       lit "\textbf{Options:}";
       lit "\begin{enumerate}" ]
  ++ options_block q
  ++ [ lit "\end{enumerate}"; [] ]
  ++ match q_answer q with
     | Some ((_ :: _) as answer) =>
         [ lit "\textbf{Answer: }" ++ escape_latex answer;
           lit "\vspace{12pt}";
           [] ]
     | _ => []
     end
  ++ image_lines images image_scales q question_id.




(** A record with one more entry in its options. *)
Definition with_option (q : question) (key text : str) : question :=
  {| q_id := q_id q;
     q_date := q_date q;
     q_question := q_question q;
     q_options := Some (dset key text (options_of q));
     q_image := q_image q;
     q_answer := q_answer q |}.

(** The option lines a record calls for: one per key among A to E
    that the options hold, in that order. *)
Definition expected_items (options : dict str) : list str :=
  flat_map
    (fun key =>
       match dget options key with
       | Some text => [item_line key text]
       | None => []
       end)
    [lit "A"; lit "B"; lit "C"; lit "D"; lit "E"].

(** [read_questions]: nothing is caught. *)
Definition read_questions (fs : filesystem) (json_file : str)
    : result json :=
  match fs json_file with
  | None => Raise FileNotFoundError
  | Some NotJson => Raise JSONDecodeError
  | Some (JsonDoc data) => Ok data
  end.

End Latex.

(* ================================================================= *)
(** ** nejm_image_caption.py                                          *)
(* ================================================================= *)

Module Caption.

(** [load_existing_captions]: the handler catches [JSONDecodeError]
    and [IOError]; a document of any shape is returned as it is. *)
Definition load_existing_captions (fs : filesystem) (output_file : str)
    : result json :=
  match fs output_file with
  | None => Ok (JDict [])
  | Some NotJson => Ok (JDict [])
  | Some (JsonDoc data) => Ok data
  end.

End Caption.

(* ================================================================= *)
(** ** The calendar, for the runs evaluated below                     *)
(* ================================================================= *)

Module Calendar.

Definition is_leap (y : Z) : bool :=
  (y mod 4 =? 0) && (negb (y mod 100 =? 0) || (y mod 400 =? 0)).

Definition days_in_month (y m : Z) : Z :=
  if m =? 2 then (if is_leap y then 29 else 28)
  else if (m =? 4) || (m =? 6) || (m =? 9) || (m =? 11) then 30
  else 31.

(** Month and day of the [n]-th day (from 0) of year [y]. *)
Fixpoint month_and_day (y : Z) (n : Z) (months : list Z) : Z * Z :=
  match months with
  | [] => (12, 31)
  | m :: rest =>
      if n <? days_in_month y m then (m, n + 1)
      else month_and_day y (n - days_in_month y m) rest
  end.

(** Year, month and day of the [n]-th day (from 0) after 0001-01-01,
    in the proleptic Gregorian calendar. *)
Definition ymd_of_days (n : Z) : Z * Z * Z :=
  let n400 := n / 146097 in
  let n := n mod 146097 in
  let n100 := n / 36524 in
  let n := n mod 36524 in
  let n4 := n / 1461 in
  let n := n mod 1461 in
  let n1 := n / 365 in
  let n := n mod 365 in
  let year := n400 * 400 + n100 * 100 + n4 * 4 + n1 + 1 in
  if (n1 =? 4) || (n100 =? 4) then (year - 1, 12, 31)
  else
    let '(m, d) := month_and_day year n [1; 2; 3; 4; 5; 6; 7; 8; 9; 10; 11; 12] in
    (year, m, d).

Definition pad (width : nat) (z : Z) : str :=
  let digits := str_of_Z z in
  repeat 48%N (width - List.length digits) ++ digits.

(** [date.strftime("%Y%m%d")]. *)
Definition strftime_Ymd (t : Batch.datetime) : str :=
  let '(y, m, d) := ymd_of_days (t / Batch.US_PER_DAY) in
  pad 4 y ++ pad 2 m ++ pad 2 d.

Definition month_name (m : Z) : str :=
  nth (Z.to_nat (m - 1))
    [lit "January"; lit "February"; lit "March"; lit "April"; lit "May";
     lit "June"; lit "July"; lit "August"; lit "September";
     lit "October"; lit "November"; lit "December"] [].

Definition digit_value (c : char) : option Z :=
  if ((48 <=? c) && (c <=? 57))%N then Some (Z.of_N c - 48) else None.

Fixpoint number_of (digits : str) (acc : Z) : option Z :=
  match digits with
  | [] => Some acc
  | c :: r =>
      match digit_value c with
      | Some v => number_of r (acc * 10 + v)
      | None => None
      end
  end.

(** [strptime(id, "%Y%m%d").strftime("%B %d,%Y")] for an id of eight
    digits; any other id is taken to be rejected. *)
Definition long_date (challenge_id : str) : option str :=
  if negb (List.length challenge_id =? 8)%nat then None
  else
    match number_of (firstn 4 challenge_id) 0,
          number_of (firstn 2 (skipn 4 challenge_id)) 0,
          number_of (skipn 6 challenge_id) 0 with
    | Some y, Some m, Some d =>
        if (1 <=? y) && (1 <=? m) && (m <=? 12) && (1 <=? d)
           && (d <=? days_in_month y m)
        then Some (month_name m ++ lit " " ++ pad 2 d ++ lit ","
                   ++ pad 4 y)
        else None
    | _, _, _ => None
    end.

(** Midnight of the day with the given ordinal ([date.toordinal]). *)
Definition midnight (ordinal : Z) : Batch.datetime :=
  (ordinal - 1) * Batch.US_PER_DAY.

End Calendar.

(* ================================================================= *)
(** ** Sample inputs                                                  *)
(* ================================================================= *)

Module Samples.

(** A freshly downloaded record and two records of an existing
    collection for the same id: one whose answer is the empty string,
    one with a known answer. *)
Definition sample_downloaded : dict json :=
  [ (lit "id", JStr (lit "20051013"));
    (lit "image", JStr (lit "images/nejm_20051013.jpg"));
    (lit "answer", JNull) ].

Definition sample_existing : dict json :=
  [ (lit "id", JStr (lit "20051013"));
    (lit "image", JStr (lit "images/old.jpg"));
    (lit "answer", JStr []) ].

Definition sample_answered : dict json :=
  [ (lit "id", JStr (lit "20051013"));
    (lit "image", JStr (lit "images/old.jpg"));
    (lit "answer", JStr (lit "Scurvy")) ].

Definition collection_path : str := lit "nejm_questions.json".

(** 13 October 2005, the first challenge. *)
Definition first_challenge : Batch.datetime := Calendar.midnight 732232.

Definition sample_options : dict str :=
  [ (lit "A", lit "Erythema migrans");
    (lit "B", lit "Granuloma annulare");
    (lit "C", lit "Tinea corporis") ].

(** A record of the collection for the first challenge with the given
    [image] field. *)
Definition stored_record (image : json) : json :=
  JDict
    [ (lit "id", JStr (lit "20051013"));
      (lit "date", JStr (lit "October 13,2005"));
      (lit "question", JStr (lit "What is the diagnosis?"));
      (lit "options",
       JDict (map (fun kv => (fst kv, JStr (snd kv))) sample_options));
      (lit "image", image);
      (lit "answer", JNull) ].

(** What the site serves for every id when it is up. *)
Definition site_page : Batch.page :=
  {| Batch.pg_question := Some (lit "What is the diagnosis?");
     Batch.pg_options := sample_options;
     Batch.pg_image := Some (lit "images/nejm_20051013.jpg") |}.

Definition site_up : list str -> str -> result Batch.page :=
  fun _ _ => Ok site_page.

Definition site_down : list str -> str -> result Batch.page :=
  fun _ _ => Raise OSError.

(** A world whose only file is the collection, holding [doc]. *)
Definition world_with (f : file) : Batch.world :=
  {| Batch.files := write_file (fun _ => None) collection_path f;
     Batch.requests := [] |}.

(** An option of the answers container. *)
Definition option_span (text : str) : Downloader.node :=
  Downloader.Element (lit "span") [lit "radio--primary-label-text"]
    [Downloader.Text text].

(** A challenge page with the given option spans. *)
Definition challenge_page (option_spans : list Downloader.node)
    : Downloader.node :=
  Downloader.Element (lit "[document]") []
    [ Downloader.Element (lit "div") [lit "image-challenge-qa_content"]
        [ Downloader.Element (lit "div") [lit "image-challenge-qa_left"]
            [ Downloader.Element (lit "img") [] [] ];
          Downloader.Element (lit "div") [lit "image-challenge-qa_right"]
            [ Downloader.Element (lit "div")
                [lit "image-challenge-qa_question"]
                [Downloader.Text (lit " What is the diagnosis? ")];
              Downloader.Element (lit "div")
                [lit "image-challenge-qa_answers"] option_spans ] ] ].

End Samples.

(* ================================================================= *)
(** ** The command lines: batch_download.py and nejm_batch_cli.py     *)
(* ================================================================= *)

Module Cli.
Import Batch.

(** [s.split(sep)] for a separator of one character; [cur] is the
    piece being read, in reverse. *)
Fixpoint split_from (sep : char) (cur : str) (s : str) : list str :=
  match s with
  | [] => [rev cur]
  | c :: r =>
      if (c =? sep)%N then rev cur :: split_from sep [] r
      else split_from sep (c :: cur) r
  end.

Definition split (sep : char) (s : str) : list str :=
  split_from sep [] s.

Definition COMMA : char := 44%N.

(** The truth value of an optional string argument: [None] and the
    empty string are false. *)
Definition given (argument : option str) : bool :=
  match argument with
  | Some (_ :: _) => true
  | _ => false
  end.

(** What a command does: it returns without a download, it calls
    [batch_download] with dates and an output file, or it raises. *)
Inductive action : Type :=
| Returns
| Downloads (dates : list datetime) (output_file : str)
| Raises (e : exn).

Section Commands.

(** [parse_date_string]: the date [datetime.strptime] reads in the
    format [%Y%m%d], [None] when it raises [ValueError]. *)
Variable parse_date_string : str -> option datetime.

(** [datetime.now().strftime("%Y%m%d")]. *)
Variable today : str.

Definition default_start : str := lit "20051013".

(** The loop over the comma-separated dates: those that parse. *)
Fixpoint parse_dates (date_strings : list str) (dates : list datetime)
    : list datetime :=
  match date_strings with
  | [] => dates
  | date_str :: rest =>
      match parse_date_string date_str with
      | Some date_obj => parse_dates rest (dates ++ [date_obj])
      | None => parse_dates rest dates
      end
  end.

(** The date range of two arguments; [None] is an exhausted fuel of
    [generate_date_range]. *)
Definition range_action (start_date end_date output : str)
    : option action :=
  match parse_date_string start_date, parse_date_string end_date with
  | Some start, Some end_ =>
      if end_ <? start then Some Returns
      else
        match generate_date_range start end_ with
        | None => None
        | Some (Ok dates) => Some (Downloads dates output)
        | Some (Raise e) => Some (Raises e)
        end
  | _, _ => Some Returns
  end.

(** The arguments of [batch_download.py]. *)
Record arguments : Type := {
  start_date : str;
  end_date : str;
  dates : option str;
  output : str
}.

(** [main] of [batch_download.py]. *)
Definition main (args : arguments) : option action :=
  if given (dates args)
     && (negb (str_eqb (start_date args) default_start)
         || negb (str_eqb (end_date args) today))
  then Some Returns
  else
    match start_date args, end_date args with
    | _ :: _, _ :: _ =>
        range_action (start_date args) (end_date args) (output args)
    | _, _ =>
        match dates args with
        | Some ((_ :: _) as listed) =>
            let date_strings := map strip (split COMMA listed) in
            match parse_dates date_strings [] with
            | [] => Some Returns
            | parsed => Some (Downloads parsed (output args))
            end
        | _ => Some (Downloads [] (output args))
        end
    end.

(** The arguments of the [download] command of [nejm_batch_cli.py]. *)
Record download_arguments : Type := {
  cli_single_date : option str;
  cli_dates : option str;
  cli_start_date : str;
  cli_end_date : str;
  cli_output : str
}.

(** [cmd_download] of [nejm_batch_cli.py]. *)
Definition cmd_download (args : download_arguments) : option action :=
  match cli_single_date args with
  | Some ((_ :: _) as single_date) =>
      match parse_date_string single_date with
      | None => Some Returns
      | Some date_obj => Some (Downloads [date_obj] (cli_output args))
      end
  | _ =>
      match cli_dates args with
      | Some ((_ :: _) as listed) =>
          let date_strings := map strip (split COMMA listed) in
          match parse_dates date_strings [] with
          | [] => Some Returns
          | parsed => Some (Downloads parsed (cli_output args))
          end
      | _ =>
          range_action (cli_start_date args) (cli_end_date args)
            (cli_output args)
      end
  end.

End Commands.

End Cli.

(* ================================================================= *)
(** ** json2latex.py: the automatic scales                            *)
(* ================================================================= *)

Module Scales.
Import Latex.

(** [calculate_automatic_scales]: a scale for every question with an
    image path, under the text of its id. *)
Definition calculate_automatic_scales (images : image_store)
    (questions : list question) : dict Q :=
  fold_left
    (fun auto_scales q =>
       let question_id :=
         match q_id q with Some i => i | None => JStr (lit "unknown") end in
       match q_image q with
       | Some ((_ :: _) as image_path) =>
           let has_answer :=
             match q_answer q with Some _ => true | None => false end in
           let text_height_pt := estimate_text_height q has_answer in
           let scale :=
             calculate_optimal_scale images image_path text_height_pt
               question_id in
           dset (py_str question_id) scale auto_scales
       | _ => auto_scales
       end)
    questions [].

End Scales.

(* ================================================================= *)
(** ** nejm_image_caption.py: the stored captions                     *)
(* ================================================================= *)

Module Captions.

(** How a lookup in the stored captions can fail. *)
Inductive failure : Type :=
| NoGetMethod    (* AttributeError: the value has no method get *)
| NotIterable.   (* TypeError: the value cannot be iterated *)

(** What [for image in x] goes over: the elements of a list, the keys
    of a dict, the characters of a string. *)
Definition iterate (x : json) : option (list json) :=
  match x with
  | JList l => Some l
  | JDict d => Some (map (fun kv => JStr (fst kv)) d)
  | JStr s => Some (map (fun c => JStr [c]) s)
  | _ => None
  end.

(** [captions_data.get("images", [])], ready for the loop. *)
Definition stored_images (captions_data : json)
    : list json + failure :=
  match captions_data with
  | JDict d =>
      match dget d (lit "images") with
      | Some images =>
          match iterate images with
          | Some l => inl l
          | None => inr NotIterable
          end
      | None => inl []
      end
  | _ => inr NoGetMethod
  end.

(** The loop of [get_existing_caption]. *)
Fixpoint first_response (images : list json) (question_id : str)
    : option json + failure :=
  match images with
  | [] => inl None
  | image :: rest =>
      match image with
      | JDict fields =>
          if match dict_get fields (lit "id") with
             | JStr s => str_eqb s question_id
             | _ => false
             end
          then
            let response := dict_get fields (lit "response") in
            if truthy response then inl (Some response)
            else first_response rest question_id
          else first_response rest question_id
      | _ => inr NoGetMethod
      end
  end.

(** The loop of [caption_exists_for_image]. *)
Fixpoint any_response (images : list json) (question_id : str)
    : bool + failure :=
  match images with
  | [] => inl false
  | image :: rest =>
      match image with
      | JDict fields =>
          if match dict_get fields (lit "id") with
             | JStr s => str_eqb s question_id
             | _ => false
             end
             && truthy (dict_get fields (lit "response"))
          then inl true
          else any_response rest question_id
      | _ => inr NoGetMethod
      end
  end.

Definition get_existing_caption (captions_data : json) (question_id : str)
    : option json + failure :=
  match stored_images captions_data with
  | inl images => first_response images question_id
  | inr e => inr e
  end.

Definition caption_exists_for_image (captions_data : json)
    (question_id : str) : bool + failure :=
  match stored_images captions_data with
  | inl images => any_response images question_id
  | inr e => inr e
  end.

End Captions.

(* ================================================================= *)
(** * Properties                                                      *)
(* ================================================================= *)

Module DictProps.

Lemma str_eqb_refl : forall a, str_eqb a a = true.
Proof. intros a. unfold str_eqb. destruct (str_eq_dec a a); congruence. Qed.

Lemma str_eqb_eq : forall a b, str_eqb a b = true <-> a = b.
Proof.
  intros a b. unfold str_eqb. destruct (str_eq_dec a b); split; congruence.
Qed.

Lemma str_eqb_neq : forall a b, str_eqb a b = false <-> a <> b.
Proof.
  intros a b. unfold str_eqb. destruct (str_eq_dec a b); split; congruence.
Qed.

Lemma dget_dset_same : forall V (d : dict V) k v,
  dget (dset k v d) k = Some v.
Proof.
  intros V d k v. induction d as [|[k' v'] d IH]; cbn.
  - now rewrite str_eqb_refl.
  - destruct (str_eqb k k') eqn:E; cbn; rewrite E; auto.
Qed.

Lemma dget_dset_other : forall V (d : dict V) k k' v,
  k' <> k -> dget (dset k v d) k' = dget d k'.
Proof.
  intros V d k k' v Hne. induction d as [|[k0 v0] d IH]; cbn.
  - apply str_eqb_neq in Hne. now rewrite Hne.
  - destruct (str_eqb k k0) eqn:E; cbn.
    + apply str_eqb_eq in E. subst k0.
      apply str_eqb_neq in Hne. now rewrite Hne.
    + destruct (str_eqb k' k0); auto.
Qed.

Lemma dset_fresh : forall V (d : dict V) k v,
  dget d k = None -> dset k v d = d ++ [(k, v)].
Proof.
  intros V d k v. induction d as [|[k' v'] d IH]; cbn; intros H.
  - reflexivity.
  - destruct (str_eqb k k'); [discriminate|]. now rewrite IH.
Qed.

Lemma dset_length : forall V (d : dict V) k v,
  (List.length (dset k v d) <= S (List.length d))%nat.
Proof.
  intros V d k v. induction d as [|[k' v'] d IH]; cbn.
  - lia.
  - destruct (str_eqb k k'); cbn; lia.
Qed.

Lemma dget_in : forall V (d : dict V) k v,
  dget d k = Some v -> In (k, v) d.
Proof.
  intros V d k v. induction d as [|[k' v'] d IH]; cbn; intros H.
  - discriminate.
  - destruct (str_eqb k k') eqn:E.
    + apply str_eqb_eq in E. injection H as <-. subst. now left.
    + right. auto.
Qed.

Lemma dget_none_keys : forall V (d : dict V) k,
  dget d k = None <-> ~ In k (keys d).
Proof.
  intros V d k. induction d as [|[k' v'] d IH]; cbn.
  - tauto.
  - destruct (str_eqb k k') eqn:E.
    + apply str_eqb_eq in E. subst. split; [discriminate|]. tauto.
    + apply str_eqb_neq in E. rewrite IH. split; [|tauto].
      intros H [H1|H1]; [congruence|tauto].
Qed.

End DictProps.

Module MergeProps.
Import Batch DictProps Samples.

Lemma dict_get_dset_same : forall d k v, dict_get (dset k v d) k = v.
Proof. intros. unfold dict_get. now rewrite dget_dset_same. Qed.

Lemma dict_get_dset_other : forall d k k' v,
  k' <> k -> dict_get (dset k v d) k' = dict_get d k'.
Proof. intros. unfold dict_get. now rewrite dget_dset_other. Qed.

Lemma truthy_not_null : forall j, truthy j = true -> j <> JNull.
Proof. intros j H ->. discriminate. Qed.

(** What [merge_challenge_data] returns when the lookup has a record
    for the id. *)
Lemma merge_challenge_data_fields : forall downloaded existing_data existing,
  dget existing_data (py_str (dict_get downloaded (lit "id")))
    = Some (JDict existing) ->
  exists merged,
    merge_challenge_data downloaded existing_data = Ok merged /\
    dict_get merged (lit "answer")
      = (if truthy (dict_get existing (lit "answer"))
         then dict_get existing (lit "answer")
         else dict_get downloaded (lit "answer")) /\
    dict_get merged (lit "image")
      = (if truthy (dict_get existing (lit "image"))
         then dict_get existing (lit "image")
         else dict_get downloaded (lit "image")).
Proof.
  intros d e ex Hex. unfold merge_challenge_data. rewrite Hex.
  cbn [get bind]. fold (dict_get ex (lit "answer")).
  fold (dict_get ex (lit "image")).
  assert (Hne : lit "answer" <> lit "image") by discriminate.
  assert (Hne' : lit "image" <> lit "answer") by discriminate.
  eexists. split; [reflexivity|].
  destruct (truthy (dict_get ex (lit "answer")));
    destruct (truthy (dict_get ex (lit "image")));
    rewrite ?dict_get_dset_same, ?dict_get_dset_other,
            ?dict_get_dset_same by assumption; auto.
Qed.

(** C2, as stated, fails on an existing answer that is not null but
    empty: the merged record keeps the null answer of the download. *)
Lemma merge_drops_empty_answer :
  dget [(lit "20051013", JDict sample_existing)]
       (py_str (dict_get sample_downloaded (lit "id")))
    = Some (JDict sample_existing) /\
  dict_get sample_existing (lit "answer") <> JNull /\
  exists merged,
    merge_challenge_data sample_downloaded
      [(lit "20051013", JDict sample_existing)] = Ok merged /\
    dict_get merged (lit "answer") = JNull /\
    dict_get merged (lit "answer") <> dict_get sample_existing (lit "answer").
Proof.
  split; [reflexivity|]. split; [discriminate|].
  eexists. split; [reflexivity|]. split; [reflexivity|discriminate].
Qed.

(** C2, as the code has it: an existing answer (image) that is truthy,
    that is neither null nor empty, is the answer (image) of the merged
    record and is never replaced by null; an existing answer (image)
    that is falsy, be it null or the empty string, is not copied: the
    merged record keeps what the download has; and a field the
    download already shares with the existing record is unchanged. *)
Theorem merge_keeps_existing_fields :
  forall downloaded existing_data existing field,
  field = lit "answer" \/ field = lit "image" ->
  dget existing_data (py_str (dict_get downloaded (lit "id")))
    = Some (JDict existing) ->
  exists merged,
    merge_challenge_data downloaded existing_data = Ok merged /\
    (truthy (dict_get existing field) = true ->
       dict_get merged field = dict_get existing field /\
       dict_get merged field <> JNull) /\
    (truthy (dict_get existing field) = false ->
       dict_get merged field = dict_get downloaded field) /\
    (dict_get downloaded field = dict_get existing field ->
       dict_get merged field = dict_get downloaded field).
Proof.
  intros d e ex field Hfield Hex.
  destruct (merge_challenge_data_fields d e ex Hex)
    as (merged & Hm & Ha & Hi).
  exists merged. split; [exact Hm|].
  destruct Hfield as [-> | ->].
  - rewrite Ha. split; [|split].
    + intros Ht. rewrite Ht. split; [reflexivity|].
      now apply truthy_not_null.
    + intros Hf. rewrite Hf. reflexivity.
    + intros Heq. destruct (truthy (dict_get ex (lit "answer"))); congruence.
  - rewrite Hi. split; [|split].
    + intros Ht. rewrite Ht. split; [reflexivity|].
      now apply truthy_not_null.
    + intros Hf. rewrite Hf. reflexivity.
    + intros Heq. destruct (truthy (dict_get ex (lit "image"))); congruence.
Qed.

Lemma merge_keeps_existing_fields_witness :
  exists merged,
    merge_challenge_data sample_downloaded
      [(lit "20051013", JDict sample_answered)] = Ok merged /\
    (truthy (dict_get sample_answered (lit "answer")) = true ->
       dict_get merged (lit "answer")
         = dict_get sample_answered (lit "answer") /\
       dict_get merged (lit "answer") <> JNull) /\
    (truthy (dict_get sample_answered (lit "answer")) = false ->
       dict_get merged (lit "answer")
         = dict_get sample_downloaded (lit "answer")) /\
    (dict_get sample_downloaded (lit "answer")
       = dict_get sample_answered (lit "answer") ->
       dict_get merged (lit "answer")
         = dict_get sample_downloaded (lit "answer")).
Proof.
  apply (merge_keeps_existing_fields sample_downloaded
           [(lit "20051013", JDict sample_answered)] sample_answered
           (lit "answer")).
  - left. reflexivity.
  - reflexivity.
Defined.

End MergeProps.

Module DateProps.
Import Batch.

Lemma ONE_WEEK_pos : 0 < ONE_WEEK.
Proof. reflexivity. Qed.

(** The dates of [n] consecutive weeks from [start]. *)
Definition weekly (start : datetime) (n : nat) : list datetime :=
  map (fun k => start + ONE_WEEK * Z.of_nat k) (seq 0 n).

Lemma weekly_S : forall start n,
  weekly start (S n) = start :: weekly (start + ONE_WEEK) n.
Proof.
  intros start n. unfold weekly. cbn [seq map]. f_equal.
  - change (Z.of_nat 0) with 0. lia.
  - rewrite <- seq_shift, map_map. apply map_ext. intros k.
    rewrite Nat2Z.inj_succ. lia.
Qed.

Lemma generate_loop_weekly : forall n fuel dates current_date end_date,
  (n < fuel)%nat ->
  0 <= current_date ->
  current_date + ONE_WEEK * Z.of_nat n <= DATETIME_MAX ->
  (forall k, (k < n)%nat -> current_date + ONE_WEEK * Z.of_nat k <= end_date) ->
  end_date < current_date + ONE_WEEK * Z.of_nat n ->
  generate_loop fuel dates current_date end_date
  = Some (Ok (dates ++ weekly current_date n)).
Proof.
  induction n as [|n IH]; intros fuel dates cur end_ Hfuel Hcur Hmax Hle Hgt.
  - destruct fuel as [|fuel]; [lia|]. cbn [generate_loop].
    destruct (Z.leb_spec cur end_); [lia|].
    unfold weekly. cbn [seq map]. now rewrite app_nil_r.
  - destruct fuel as [|fuel]; [lia|]. cbn [generate_loop].
    assert (H0 : cur <= end_) by (specialize (Hle O); lia).
    destruct (Z.leb_spec cur end_); [|lia].
    pose proof ONE_WEEK_pos as HW.
    unfold add_timedelta.
    assert (Hin : (0 <=? cur + ONE_WEEK) && (cur + ONE_WEEK <=? DATETIME_MAX) = true).
    { apply andb_true_intro. split; apply Z.leb_le; nia. }
    rewrite Hin. cbv beta iota.
    rewrite weekly_S.
    replace (dates ++ cur :: weekly (cur + ONE_WEEK) n)
      with ((dates ++ [cur]) ++ weekly (cur + ONE_WEEK) n)
      by (rewrite <- app_assoc; reflexivity).
    apply IH; try lia.
    intros k Hk. specialize (Hle (S k)). lia.
Qed.

Lemma weekly_length : forall start n, List.length (weekly start n) = n.
Proof. intros. unfold weekly. now rewrite length_map, length_seq. Qed.

Lemma weekly_nth : forall start n i a,
  nth_error (weekly start n) i = Some a -> a = start + ONE_WEEK * Z.of_nat i.
Proof.
  intros start n. revert start.
  induction n as [|n IH]; intros start i a H.
  - destruct i; discriminate.
  - rewrite weekly_S in H. destruct i as [|i].
    + cbn in H. injection H as <-. change (Z.of_nat 0) with 0. lia.
    + cbn [nth_error] in H. apply IH in H. rewrite Nat2Z.inj_succ. lia.
Qed.

(** C5, on dates near [datetime.max]: the loop adds a week to the last
    date it keeps, and that addition raises. *)
Lemma generate_date_range_overflow :
  let last_day := Calendar.midnight 3652059 in
  valid_datetime last_day /\ last_day <= last_day /\
  generate_date_range last_day last_day = Some (Raise OverflowError).
Proof. vm_compute. repeat split; congruence. Qed.

(** C5, as the code has it: for [start <= end], when the week after
    the last date kept is still a [datetime], the list has
    [(end - start).days // 7 + 1] entries, starts at [start] and
    advances by exactly 7 days. *)
Theorem generate_date_range_weekly : forall start_date end_date,
  0 <= start_date ->
  start_date <= end_date ->
  start_date + ONE_WEEK * ((end_date - start_date) / ONE_WEEK + 1)
    <= DATETIME_MAX ->
  exists dates,
    generate_date_range start_date end_date = Some (Ok dates) /\
    Z.of_nat (List.length dates) = delta_days start_date end_date / 7 + 1 /\
    nth_error dates 0 = Some start_date /\
    (forall i a b,
       nth_error dates i = Some a -> nth_error dates (S i) = Some b ->
       b - a = 7 * US_PER_DAY).
Proof.
  intros start end_ Hstart Hle Hmax.
  pose proof ONE_WEEK_pos as HW.
  set (q := (end_ - start) / ONE_WEEK) in *.
  assert (Hq : 0 <= q) by (apply Z.div_pos; lia).
  assert (Hlow : ONE_WEEK * q <= end_ - start)
    by (apply Z.mul_div_le; lia).
  assert (Hhigh : end_ - start < ONE_WEEK * (q + 1)).
  { pose proof (Z.mod_pos_bound (end_ - start) ONE_WEEK HW) as Hm.
    pose proof (Z.div_mod (end_ - start) ONE_WEEK) as Hd.
    fold q in Hd. lia. }
  exists (weekly start (Z.to_nat (q + 1))).
  assert (Hn : Z.of_nat (Z.to_nat (q + 1)) = q + 1) by lia.
  split; [|split; [|split]].
  - unfold generate_date_range.
    change (generate_loop (loop_fuel start end_) [] start end_
            = Some (Ok ([] ++ weekly start (Z.to_nat (q + 1))))).
    apply generate_loop_weekly.
    + unfold loop_fuel. fold q. lia.
    + exact Hstart.
    + rewrite Hn. exact Hmax.
    + intros k Hk. nia.
    + rewrite Hn. lia.
  - rewrite weekly_length, Hn. unfold delta_days.
    rewrite Z.div_div by (unfold US_PER_DAY; lia).
    reflexivity.
  - replace (Z.to_nat (q + 1)) with (S (Z.to_nat q)) by lia.
    rewrite weekly_S. reflexivity.
  - intros i a b Ha Hb.
    apply weekly_nth in Ha. apply weekly_nth in Hb.
    rewrite Nat2Z.inj_succ in Hb. subst a b. unfold ONE_WEEK. lia.
Qed.

Lemma generate_date_range_weekly_witness :
  exists dates,
    generate_date_range (Calendar.midnight 732232) (Calendar.midnight 732246)
      = Some (Ok dates) /\
    Z.of_nat (List.length dates)
      = delta_days (Calendar.midnight 732232) (Calendar.midnight 732246) / 7 + 1 /\
    nth_error dates 0 = Some (Calendar.midnight 732232) /\
    (forall i a b,
       nth_error dates i = Some a -> nth_error dates (S i) = Some b ->
       b - a = 7 * US_PER_DAY).
Proof.
  apply (generate_date_range_weekly
           (Calendar.midnight 732232) (Calendar.midnight 732246));
    vm_compute; congruence.
Defined.

End DateProps.
Module RunProps.
Import Batch DictProps Samples.

(** Every record of a lookup is a dict. *)
Definition all_dicts (lookup : dict json) : Prop :=
  forall k v, dget lookup k = Some v -> exists d, v = JDict d.

Lemma build_lookup_dicts : forall data lookup lookup',
  all_dicts lookup ->
  build_lookup lookup data = Ok lookup' ->
  all_dicts lookup'.
Proof.
  induction data as [|item rest IH]; intros lookup lookup' Hall H.
  - cbn in H. now injection H as <-.
  - cbn [build_lookup] in H.
    destruct item as [| | | |l|d]; try discriminate H.
    cbn [get bind] in H.
    eapply IH; [|exact H].
    intros k v Hk.
    destruct (str_eq_dec k
                (py_str match dget d (lit "id") with
                        | Some v0 => v0 | None => JNull end)) as [->|Hne].
    + rewrite dget_dset_same in Hk. injection Hk as <-. now exists d.
    + rewrite dget_dset_other in Hk by exact Hne. exact (Hall _ _ Hk).
Qed.

Lemma load_existing_data_dicts : forall fs json_file lookup data,
  load_existing_data fs json_file = Ok (lookup, data) ->
  all_dicts lookup.
Proof.
  intros fs json_file lookup data H. unfold load_existing_data in H.
  assert (Hnil : all_dicts []) by (intros k v Hk; discriminate Hk).
  destruct (fs json_file) as [[j|]|].
  - destruct j as [| | | |items|d];
      try (injection H as <- <-; exact Hnil).
    destruct (build_lookup [] items) as [lk|e] eqn:E; cbn in H;
      [|discriminate].
    injection H as <- <-. eapply build_lookup_dicts; eauto.
  - injection H as <- <-. exact Hnil.
  - injection H as <- <-. exact Hnil.
Qed.

Section Run.

Variable strftime_Ymd : datetime -> str.
Variable long_date : str -> option str.
Variable download_question : list str -> str -> result page.

Local Abbreviation download_challenge :=
  (download_challenge long_date download_question).
Local Abbreviation process_downloads :=
  (process_downloads long_date download_question).
Local Abbreviation collect :=
  (collect strftime_Ymd long_date download_question).
Local Abbreviation date_to_challenge_id :=
  (date_to_challenge_id strftime_Ymd).
Local Abbreviation batch_download :=
  (batch_download strftime_Ymd long_date download_question).

Lemma download_challenge_world : forall w challenge_id,
  fst (download_challenge w challenge_id)
  = {| files := files w; requests := requests w ++ [challenge_id] |}.
Proof.
  intros w cid. unfold Batch.download_challenge.
  destruct (download_question (requests w) cid); [|reflexivity].
  destruct (_ || _); [reflexivity|].
  destruct (long_date cid); reflexivity.
Qed.

Lemma merge_challenge_data_ok : forall downloaded lookup,
  all_dicts lookup ->
  exists merged, merge_challenge_data downloaded lookup = Ok merged.
Proof.
  intros d lookup Hall. unfold merge_challenge_data.
  destruct (dget lookup _) as [existing|] eqn:E; [|eauto].
  destruct (Hall _ _ E) as [ex ->]. cbn [get bind]. eauto.
Qed.

(** The second loop asks the site for each id to download, in order,
    and leaves the files alone. *)
Lemma process_downloads_world :
  forall to_download w lookup new_challenges w' collected,
  process_downloads w lookup to_download new_challenges
    = Ok (w', collected) ->
  files w' = files w /\ requests w' = requests w ++ to_download.
Proof.
  induction to_download as [|cid rest IH];
    intros w lookup news w' collected H.
  - cbn in H. injection H as <- <-. now rewrite app_nil_r.
  - cbn [Batch.process_downloads] in H.
    pose proof (download_challenge_world w cid) as Hw.
    destruct (download_challenge w cid) as [w1 [d|]]; cbn in Hw; subst w1.
    + destruct (merge_challenge_data d lookup) as [m|e]; [|discriminate].
      cbn [bind] in H. apply IH in H. cbn in H.
      destruct H as [Hf Hr]. rewrite Hr, <- app_assoc. auto.
    + apply IH in H. cbn in H.
      destruct H as [Hf Hr]. rewrite Hr, <- app_assoc. auto.
Qed.

Lemma process_downloads_ok : forall to_download w lookup new_challenges,
  all_dicts lookup ->
  exists w' collected,
    process_downloads w lookup to_download new_challenges
      = Ok (w', collected).
Proof.
  induction to_download as [|cid rest IH]; intros w lookup news Hall.
  - cbn. eauto.
  - cbn [Batch.process_downloads].
    destruct (download_challenge w cid) as [w1 [d|]].
    + destruct (merge_challenge_data_ok d lookup Hall) as [m ->].
      cbn [bind]. apply IH. exact Hall.
    + apply IH. exact Hall.
Qed.

(** The first loop keeps an id out of [to_download] when the lookup
    has a record with a truthy image for it. *)
Lemma select_downloads_skips :
  forall challenge_ids lookup to_download skipped,
  all_dicts lookup ->
  exists selected skipped',
    select_downloads lookup challenge_ids to_download skipped
      = Ok (selected, skipped') /\
    forall challenge_id existing image,
      dget lookup challenge_id = Some existing ->
      get existing (lit "image") = Ok image ->
      truthy image = true ->
      ~ In challenge_id to_download ->
      ~ In challenge_id selected.
Proof.
  induction challenge_ids as [|cid rest IH];
    intros lookup acc skipped Hall.
  - cbn. exists acc, skipped. split; [reflexivity|]. auto.
  - cbn [select_downloads].
    destruct (dget lookup cid) as [existing|] eqn:E.
    + destruct (Hall _ _ E) as [ex ->]. cbn [get bind].
      destruct (truthy _) eqn:Ht.
      * apply IH. exact Hall.
      * destruct (IH lookup (acc ++ [cid]) skipped Hall)
          as (sel & sk & -> & Hsel).
        exists sel, sk. split; [reflexivity|].
        intros c existing image Hc Hg Himg Hnot.
        eapply Hsel; eauto.
        rewrite in_app_iff. intros [H|[H|[]]]; [tauto|]. subst c.
        rewrite E in Hc. injection Hc as <-. cbn in Hg.
        injection Hg as <-. congruence.
    + destruct (IH lookup (acc ++ [cid]) skipped Hall)
        as (sel & sk & -> & Hsel).
      exists sel, sk. split; [reflexivity|].
      intros c existing image Hc Hg Himg Hnot.
      eapply Hsel; eauto.
      rewrite in_app_iff. intros [H|[H|[]]]; [tauto|]. subst c.
      congruence.
Qed.


(** What [batch_download] does once the collection is loaded. *)
Lemma batch_download_requests :
  forall w dates output_file existing_file lookup data,
  load_existing_data (files w) existing_file = Ok (lookup, data) ->
  exists w' selected skipped,
    batch_download w dates output_file existing_file = Ok w' /\
    (dates = [] \/
     select_downloads lookup (map date_to_challenge_id dates) [] 0
       = Ok (selected, skipped)) /\
    (dates = [] -> w' = w) /\
    (dates <> [] -> requests w' = requests w ++ selected).
Proof.
  intros w dates out ex lookup data Hload.
  pose proof (load_existing_data_dicts _ _ _ _ Hload) as Hall.
  destruct (select_downloads_skips (map date_to_challenge_id dates)
              lookup [] 0 Hall)
    as (sel & sk & Hsel & _).
  destruct dates as [|d0 dates'].
  - exists w, sel, sk. cbn. repeat split; auto. congruence.
  - destruct (process_downloads_ok sel w lookup [] Hall) as (w1 & c & Hp).
    pose proof (process_downloads_world _ _ _ _ _ _ Hp) as [Hf Hr].
    unfold Batch.batch_download, Batch.collect.
    rewrite Hload. cbn [bind].
    rewrite Hsel. cbn [bind fst snd]. rewrite Hp. cbn [bind fst snd].
    destruct c as [|c0 c'].
    + exists w1, sel, sk. repeat split; auto. congruence.
    + eexists _, sel, sk. split; [reflexivity|].
      cbn [requests]. repeat split; auto. congruence.
Qed.

(** C8, as the code has it: when the record the lookup holds for an
    id has a truthy image, neither null nor empty, the run makes no
    request for that id. *)
Theorem known_image_is_not_requested :
  forall w dates output_file existing_file lookup data
         challenge_id existing image,
  load_existing_data (files w) existing_file = Ok (lookup, data) ->
  dget lookup challenge_id = Some existing ->
  get existing (lit "image") = Ok image ->
  truthy image = true ->
  exists w' new_requests,
    batch_download w dates output_file existing_file = Ok w' /\
    requests w' = requests w ++ new_requests /\
    ~ In challenge_id new_requests.
Proof.
  intros w dates out ex lookup data cid existing image
         Hload Hcid Himage Htruthy.
  destruct (batch_download_requests w dates out ex lookup data Hload)
    as (w' & sel & sk & Hrun & Hsel & Hnil & Hcons).
  exists w'.
  destruct dates as [|d0 dates'].
  - exists []. rewrite (Hnil eq_refl), app_nil_r. auto.
  - exists sel. split; [exact Hrun|]. split; [apply Hcons; discriminate|].
    destruct Hsel as [Hsel|Hsel]; [discriminate|].
    pose proof (load_existing_data_dicts _ _ _ _ Hload) as Hall.
    destruct (select_downloads_skips
                (map date_to_challenge_id (d0 :: dates')) lookup [] 0 Hall)
      as (sel' & sk' & Hsel' & Hskip).
    rewrite Hsel in Hsel'. injection Hsel' as <- <-.
    eapply Hskip; eauto.
Qed.

(** C10: a run that collects no new challenge returns before the
    output file is opened, and every file is as it was. *)
Theorem nothing_downloaded_nothing_written :
  forall w dates output_file existing_file w' data,
  collect w dates existing_file = Ok (w', data, []) ->
  exists after,
    batch_download w dates output_file existing_file = Ok after /\
    files after = files w.
Proof.
  intros w dates out ex w' data Hcollect.
  destruct dates as [|d0 dates'].
  - exists w. split; reflexivity.
  - exists w'. unfold Batch.batch_download. rewrite Hcollect. cbn [bind].
    split; [reflexivity|].
    unfold Batch.collect in Hcollect.
    destruct (load_existing_data (files w) ex) as [[lookup lst]|e];
      [|discriminate].
    cbn [bind] in Hcollect.
    destruct (select_downloads lookup _ [] 0) as [[sel sk]|e];
      [|discriminate].
    cbn [bind fst snd] in Hcollect.
    destruct (process_downloads w lookup sel []) as [[w1 c]|e] eqn:Hp;
      [|discriminate].
    cbn [bind fst snd] in Hcollect. injection Hcollect as <- _ _.
    apply (process_downloads_world _ _ _ _ _ _ Hp).
Qed.

End Run.

Lemma known_image_is_not_requested_witness :
  exists w' new_requests,
    batch_download Calendar.strftime_Ymd Calendar.long_date site_up
      (world_with (JsonDoc (JList [stored_record (JStr (lit "images/a.jpg"))])))
      [first_challenge] collection_path collection_path = Ok w' /\
    requests w'
      = requests
          (world_with
             (JsonDoc (JList [stored_record (JStr (lit "images/a.jpg"))])))
        ++ new_requests /\
    ~ In (lit "20051013") new_requests.
Proof.
  eapply (known_image_is_not_requested
            Calendar.strftime_Ymd Calendar.long_date site_up
            (world_with
               (JsonDoc (JList [stored_record (JStr (lit "images/a.jpg"))])))
            [first_challenge] collection_path collection_path
            _ _ (lit "20051013")); vm_compute; reflexivity.
Defined.

(** C8, as stated, fails on a stored image that is not null but
    empty: the id is requested again. *)
Lemma empty_image_is_requested_again :
  get (stored_record (JStr [])) (lit "id") = Ok (JStr (lit "20051013")) /\
  get (stored_record (JStr [])) (lit "image") = Ok (JStr []) /\
  JStr [] <> JNull /\
  date_to_challenge_id Calendar.strftime_Ymd first_challenge
    = lit "20051013" /\
  exists w',
    batch_download Calendar.strftime_Ymd Calendar.long_date site_up
      (world_with (JsonDoc (JList [stored_record (JStr [])])))
      [first_challenge] collection_path collection_path = Ok w' /\
    requests w' = [lit "20051013"].
Proof.
  split; [reflexivity|]. split; [reflexivity|]. split; [discriminate|].
  split; [reflexivity|].
  eexists. split; [vm_compute; reflexivity|reflexivity].
Qed.

Lemma nothing_downloaded_nothing_written_witness :
  exists after,
    batch_download Calendar.strftime_Ymd Calendar.long_date site_down
      (world_with (JsonDoc (JList [stored_record JNull])))
      [first_challenge] collection_path collection_path = Ok after /\
    files after
      = files (world_with (JsonDoc (JList [stored_record JNull]))).
Proof.
  eapply (nothing_downloaded_nothing_written
            Calendar.strftime_Ymd Calendar.long_date site_down
            (world_with (JsonDoc (JList [stored_record JNull])))
            [first_challenge] collection_path collection_path).
  vm_compute. reflexivity.
Defined.

(** C1, evaluated: the collection holds the first challenge without an
    image; the run fetches it again and writes a collection with two
    records of that id. *)
Theorem rerun_writes_id_twice :
  exists w' first second,
    batch_download Calendar.strftime_Ymd Calendar.long_date site_up
      (world_with (JsonDoc (JList [stored_record JNull])))
      [first_challenge] collection_path collection_path = Ok w' /\
    files w' collection_path = Some (JsonDoc (JList [first; second])) /\
    first = stored_record JNull /\
    get first (lit "id") = Ok (JStr (lit "20051013")) /\
    get second (lit "id") = Ok (JStr (lit "20051013")).
Proof.
  eexists _, _, _. split; [vm_compute; reflexivity|].
  split; [vm_compute; reflexivity|].
  split; [reflexivity|]. split; reflexivity.
Qed.

(** The lookup keeps, for an id, the last record of the collection
    with that id. *)
Lemma build_lookup_last : forall before item after lookup lookup' item_id,
  get item (lit "id") = Ok item_id ->
  (forall later later_id,
     In later after -> get later (lit "id") = Ok later_id ->
     py_str later_id <> py_str item_id) ->
  build_lookup lookup (before ++ item :: after) = Ok lookup' ->
  dget lookup' (py_str item_id) = Some item.
Proof.
  induction before as [|b before IH];
    intros item after lookup lookup' item_id Hid Hafter H.
  - cbn [app build_lookup] in H. rewrite Hid in H. cbn [bind] in H.
    assert (Hnow : dget (dset (py_str item_id) item lookup) (py_str item_id)
                   = Some item) by apply dget_dset_same.
    revert Hnow H Hafter.
    generalize (dset (py_str item_id) item lookup) as acc.
    clear Hid. induction after as [|a after IHa]; intros acc Hnow H Hafter.
    + cbn in H. now injection H as <-.
    + cbn [build_lookup] in H.
      destruct (get a (lit "id")) as [aid|e] eqn:Ea; [|discriminate].
      cbn [bind] in H. eapply IHa; [|exact H|].
      * rewrite dget_dset_other; [exact Hnow|].
        intros Heq. eapply Hafter; [left; reflexivity|exact Ea|].
        now symmetry.
      * intros later lid Hin. apply Hafter. now right.
  - cbn [app build_lookup] in H.
    destruct (get b (lit "id")) as [bid|e]; [|discriminate].
    cbn [bind] in H. eapply IH; eauto.
Qed.

End RunProps.

Module LoadProps.
Import Batch Samples.

(** Text that is not JSON gives [load_existing_data] an empty
    collection. *)
Lemma load_existing_data_not_json : forall fs json_file,
  fs json_file = Some NotJson ->
  load_existing_data fs json_file = Ok ([], []).
Proof. intros fs f H. unfold load_existing_data. now rewrite H. Qed.

(** So does a document that is not a list. *)
Lemma load_existing_data_not_list : forall fs json_file data,
  fs json_file = Some (JsonDoc data) ->
  (forall items, data <> JList items) ->
  load_existing_data fs json_file = Ok ([], []).
Proof.
  intros fs f data H Hshape. unfold load_existing_data. rewrite H.
  destruct data; try reflexivity. now destruct (Hshape l).
Qed.

(** Text that is not JSON gives [load_existing_captions] an empty
    dict. *)
Lemma load_existing_captions_not_json : forall fs output_file,
  fs output_file = Some NotJson ->
  Caption.load_existing_captions fs output_file = Ok (JDict []).
Proof.
  intros fs f H. unfold Caption.load_existing_captions. now rewrite H.
Qed.

(** C7, evaluated: [read_questions] lets the error of [json.load]
    through; [load_existing_data] raises on a list whose element is
    not a record; [load_existing_captions] returns a document of
    another shape as it is. *)
Theorem malformed_collection_is_not_always_empty :
  Latex.read_questions (files (world_with NotJson)) collection_path
    = Raise JSONDecodeError /\
  load_existing_data
    (files (world_with (JsonDoc (JList [JInt 1])))) collection_path
    = Raise AttributeError /\
  Caption.load_existing_captions
    (files (world_with (JsonDoc (JList [JInt 1])))) collection_path
    = Ok (JList [JInt 1]).
Proof. repeat split. Qed.

End LoadProps.

Module HtmlProps.
Import Downloader DictProps Samples.

Lemma str_in_false : forall x xs, ~ In x xs -> str_in x xs = false.
Proof.
  intros x xs H. unfold str_in.
  destruct (existsb (str_eqb x) xs) eqn:E; [|reflexivity].
  apply existsb_exists in E. destruct E as (y & Hy & Heq).
  apply str_eqb_eq in Heq. subst y. contradiction.
Qed.

Definition span_texts (spans : list node) : list str :=
  map (fun span => strip (get_text span)) spans.

Lemma label_is_fresh : forall idx key (options : dict str),
  nth_error option_keys idx = Some key ->
  keys options = firstn idx option_keys ->
  dget options key = None /\
  firstn (S idx) option_keys = firstn idx option_keys ++ [key] /\
  skipn idx option_keys = key :: skipn (S idx) option_keys.
Proof.
  intros idx key options Hnth Hkeys.
  rewrite dget_none_keys, Hkeys.
  do 6 (destruct idx as [|idx];
        [ injection Hnth as <-; repeat split; cbn;
          intuition discriminate | ]).
  destruct idx; discriminate.
Qed.

(** Spans with distinct texts of more than five characters get the
    labels in order, from the first free one on. *)
Lemma html_options_sequential : forall option_spans idx options,
  keys options = firstn idx option_keys ->
  NoDup (values options ++ span_texts option_spans) ->
  Forall (fun t => 5 < len t) (span_texts option_spans) ->
  (idx + List.length option_spans <= 6)%nat ->
  html_options_loop idx option_spans options
  = options ++ combine (skipn idx option_keys) (span_texts option_spans).
Proof.
  induction option_spans as [|span rest IH];
    intros idx options Hkeys Hnd Hlen Hmax.
  - cbn. destruct (skipn idx option_keys); cbn; now rewrite app_nil_r.
  - cbn [html_options_loop].
    destruct (nth_error option_keys idx) as [key|] eqn:Hnth.
    2:{ apply nth_error_None in Hnth. cbn in Hnth, Hmax. lia. }
    destruct (label_is_fresh idx key options Hnth Hkeys)
      as (Hfresh & Hfirst & Hskip).
    cbn [span_texts map] in Hnd, Hlen |- *.
    fold (span_texts rest) in Hnd, Hlen |- *.
    inversion Hlen as [|? ? Hlong Hlen']; subst.
    apply Z.ltb_lt in Hlong. rewrite Hlong.
    apply NoDup_remove in Hnd. destruct Hnd as [Hnd Hnew].
    rewrite str_in_false by (intros H; apply Hnew, in_or_app; now left).
    cbn [andb negb]. rewrite dset_fresh by exact Hfresh.
    rewrite IH.
    + rewrite Hskip. cbn [combine]. now rewrite <- app_assoc.
    + unfold keys in *. rewrite map_app, Hkeys, Hfirst. reflexivity.
    + unfold values in *. rewrite map_app. cbn [map snd].
      rewrite <- app_assoc. cbn [app].
      apply NoDup_Add with (a := strip (get_text span))
                           (l := map snd options ++ span_texts rest).
      * apply Add_app.
      * split; assumption.
    + exact Hlen'.
    + cbn in Hmax. lia.
Qed.

(** Four option spans with distinct texts of more than five characters
    get the labels A, B, C, D in source order. *)
Lemma four_valid_spans_labelled : forall s1 s2 s3 s4,
  NoDup (span_texts [s1; s2; s3; s4]) ->
  Forall (fun t => 5 < len t) (span_texts [s1; s2; s3; s4]) ->
  html_options_loop 0 [s1; s2; s3; s4] []
  = combine [lit "A"; lit "B"; lit "C"; lit "D"]
            (span_texts [s1; s2; s3; s4]).
Proof.
  intros s1 s2 s3 s4 Hnd Hlen.
  rewrite html_options_sequential; auto.
Qed.

(** C4, evaluated: the second of four options has four characters and
    is not kept; the label B is left out and the options that follow
    keep the labels of their positions. *)
Theorem short_option_leaves_gap :
  _extract_question_and_options_html
    (challenge_page
       [ option_span (lit "Psoriasis");
         option_span (lit "Gout");
         option_span (lit "Tinea corporis");
         option_span (lit "Lichen planus") ])
  = (Some (lit "What is the diagnosis?"),
     [ (lit "A", lit "Psoriasis");
       (lit "C", lit "Tinea corporis");
       (lit "D", lit "Lichen planus") ]).
Proof. vm_compute. reflexivity. Qed.

End HtmlProps.

Module TextProps.
Import Downloader DictProps HtmlProps.

Lemma dmem_dset : forall V (d : dict V) k k' v,
  dmem k' d = true -> dmem k' (dset k v d) = true.
Proof.
  intros V d k k' v H. unfold dmem in *.
  destruct (str_eq_dec k' k) as [->|Hne].
  - now rewrite dget_dset_same.
  - now rewrite dget_dset_other.
Qed.

Lemma dmem_dset_same : forall V (d : dict V) k v,
  dmem k (dset k v d) = true.
Proof. intros. unfold dmem. now rewrite dget_dset_same. Qed.

(** A dict whose keys are the first [idx] labels has as many entries
    as labels it uses. *)
Lemma keys_prefix_length : forall (options : dict str) idx,
  keys options = firstn idx option_keys ->
  firstn (List.length options) option_keys = firstn idx option_keys.
Proof.
  intros options idx Hkeys.
  assert (Hlen : List.length options
                 = List.length (firstn idx option_keys)).
  { rewrite <- Hkeys. unfold keys. now rewrite length_map. }
  rewrite Hlen, length_firstn.
  destruct (Nat.le_ge_cases idx (List.length option_keys)) as [H|H].
  - now rewrite Nat.min_l.
  - rewrite Nat.min_r by exact H.
    now rewrite firstn_all, firstn_all2.
Qed.

Section TextStrategy.

Variable lower : str -> str.

(** A line that carries neither an explanation marker nor a
    navigation marker. *)
Definition unmarked (line : str) : Prop :=
  mentions lower explanation_phrases line = false /\
  mentions lower navigation_phrases line = false.

(** What the counting loop maintains: the lines met so far are
    distinct, counted and unmarked. *)
Definition counted (line_counts : dict Z) (line_order : list str) : Prop :=
  NoDup line_order /\
  Forall (fun line => dmem line line_counts = true) line_order /\
  Forall unmarked line_order.

Lemma count_lines_counted : forall lines line_counts line_order,
  counted line_counts line_order ->
  counted (fst (count_lines lower lines line_counts line_order))
          (snd (count_lines lower lines line_counts line_order)).
Proof.
  induction lines as [|line rest IH]; intros lc lo Hinv.
  - exact Hinv.
  - cbn [count_lines].
    destruct (_ || _ || _); [now apply IH|].
    destruct (mentions lower explanation_phrases line) eqn:He;
      [exact Hinv|].
    destruct (mentions lower navigation_phrases line) eqn:Hn;
      [exact Hinv|].
    destruct Hinv as (Hnd & Hmem & Hclean).
    destruct (dmem line lc) eqn:Hd; apply IH.
    + repeat split; auto.
      eapply Forall_impl; [|exact Hmem].
      intros l Hl. now apply dmem_dset.
    + repeat split.
      * apply NoDup_Add with (a := line) (l := lo).
        -- rewrite <- (app_nil_r lo) at 1. apply Add_app.
        -- split; [exact Hnd|]. intros Hin.
           rewrite Forall_forall in Hmem. rewrite (Hmem _ Hin) in Hd.
           discriminate.
      * apply Forall_app. split.
        -- eapply Forall_impl; [|exact Hmem].
           intros l Hl. now apply dmem_dset, dmem_dset.
        -- constructor; [apply dmem_dset_same|constructor].
      * apply Forall_app. split; [exact Hclean|].
        constructor; [split; assumption|constructor].
Qed.

(** The labelling loop gives the labels in order to distinct,
    unmarked lines. *)
Lemma text_options_loop_labels :
  forall line_order line_counts options option_idx,
  keys options = firstn option_idx option_keys ->
  NoDup (values options ++ line_order) ->
  Forall unmarked (values options ++ line_order) ->
  let result :=
    text_options_loop lower line_order line_counts options option_idx in
  keys result = firstn (List.length result) option_keys /\
  NoDup (values result) /\
  Forall unmarked (values result).
Proof.
  induction line_order as [|line rest IH];
    intros lc options idx Hkeys Hnd Hclean.
  - cbn [text_options_loop]. cbv zeta.
    rewrite app_nil_r in Hnd, Hclean. repeat split; auto.
    rewrite keys_prefix_length with (idx := idx) by exact Hkeys.
    exact Hkeys.
  - cbn [text_options_loop].
    assert (Hskip : NoDup (values options ++ rest)
                    /\ Forall unmarked (values options ++ rest)).
    { split.
      - now apply NoDup_remove_1 in Hnd.
      - rewrite Forall_app in Hclean |- *. destruct Hclean as [H1 H2].
        inversion H2; subst. auto. }
    destruct (nth_error option_keys idx) as [key|] eqn:Hnth.
    2:{ apply nth_error_None in Hnth.
        cbv zeta. repeat split.
        - rewrite keys_prefix_length with (idx := idx) by exact Hkeys.
          exact Hkeys.
        - apply NoDup_app_remove_r in Hnd. exact Hnd.
        - rewrite Forall_app in Hclean. tauto. }
    destruct (_ && _); [|apply IH; tauto].
    destruct (negb _); [|apply IH; tauto].
    destruct (label_is_fresh idx key options Hnth Hkeys)
      as (Hfresh & Hfirst & _).
    rewrite dset_fresh by exact Hfresh.
    apply IH.
    + unfold keys in *. rewrite map_app, Hkeys, Hfirst. reflexivity.
    + unfold values in *. rewrite map_app. cbn [map snd].
      rewrite <- app_assoc. exact Hnd.
    + unfold values in *. rewrite map_app. cbn [map snd].
      rewrite <- app_assoc. exact Hclean.
Qed.

End TextStrategy.

(** C3: strategy B returns at most six options, with pairwise distinct
    texts, none of which carries an explanation or navigation marker;
    the labels are the first letters in order. *)
Theorem text_options_few_distinct_unmarked : forall lower full_text,
  let options := snd (_extract_question_and_options_text lower full_text) in
  (List.length options <= 6)%nat /\
  NoDup (values options) /\
  Forall (fun line =>
            mentions lower explanation_phrases line = false /\
            mentions lower navigation_phrases line = false)
         (values options) /\
  keys options = firstn (List.length options) option_keys.
Proof.
  intros lower full_text options.
  assert (Hgoal :
    keys options = firstn (List.length options) option_keys /\
    NoDup (values options) /\ Forall (unmarked lower) (values options)).
  { subst options. unfold _extract_question_and_options_text.
    assert (Hnil : keys (@nil (str * str)) = firstn 0 option_keys /\
                   NoDup (values (@nil (str * str))) /\
                   Forall (unmarked lower) (values (@nil (str * str)))).
    { repeat split; constructor. }
    destruct (filter _ (map strip (split_paragraphs _))) as [|p ps] eqn:Hp;
      [exact Hnil|].
    destruct (match find_vignette lower 0 (p :: ps) with
              | Some (para, i) => Some (para, i)
              | None => _
              end) as [[question_text q_start_idx]|];
      [|exact Hnil].
    set (lines := filter _ (map strip (splitlines _))).
    pose proof (count_lines_counted lower lines [] []) as Hc.
    destruct (count_lines lower lines [] []) as [lc lo].
    cbn [snd fst] in Hc |- *.
    destruct Hc as (Hnd & _ & Hclean).
    { repeat split; constructor. }
    apply text_options_loop_labels; auto. }
  destruct Hgoal as (Hkeys & Hnd & Hclean).
  repeat split; auto.
  assert (Hlen : List.length options = List.length (keys options))
    by (unfold keys; now rewrite length_map).
  rewrite Hkeys, length_firstn in Hlen.
  change (List.length option_keys) with 6%nat in Hlen. lia.
Qed.

End TextProps.

Module ScaleProps.
Import Latex Samples.
Local Open Scope Q_scope.

Lemma clamp_bounds : forall x,
  3 # 10 <= py_max (3 # 10) (py_min (19 # 20) x) <= 19 # 20.
Proof.
  intros x. unfold py_max, py_min.
  destruct (Qlt_le_dec x (19 # 20)) as [Hx|Hx];
    destruct (Qlt_le_dec (3 # 10) _) as [Hy|Hy]; lra.
Qed.

Lemma round_half_even_bounds : forall x,
  30 <= x <= 95 -> (30 <= round_half_even x <= 95)%Z.
Proof.
  intros x [Hlo Hhi]. unfold round_half_even.
  pose proof (Qfloor_le x) as Hfl.
  pose proof (Qlt_floor x) as Hfu.
  set (f := Qfloor x) in *.
  assert (Hf30 : (30 <= f)%Z).
  { apply Z.lt_succ_r. rewrite <- Z.add_1_r at 1. change (30 + 1)%Z with 31%Z.
    assert (H : inject_Z 30 < inject_Z (f + 1)) by (change (inject_Z 30) with 30; lra).
    rewrite <- Zlt_Qlt in H. lia. }
  assert (Hf95 : (f <= 95)%Z).
  { assert (H : inject_Z f <= inject_Z 95) by (change (inject_Z 95) with 95; lra).
    now rewrite <- Zle_Qle in H. }
  assert (Hup : 1 # 2 <= x - inject_Z f -> (f + 1 <= 95)%Z).
  { intros Hr.
    assert (H : inject_Z f < inject_Z 95) by (change (inject_Z 95) with 95; lra).
    rewrite <- Zlt_Qlt in H. lia. }
  destruct (Qcompare_spec (x - inject_Z f) (1 # 2)) as [He|Hl|Hg].
  - destruct (Z.even f); [lia|]. split; [lia|]. apply Hup. rewrite He. lra.
  - lia.
  - split; [lia|]. apply Hup. lra.
Qed.

Lemma round2_bounds : forall x,
  3 # 10 <= x <= 19 # 20 -> 3 # 10 <= round2 x <= 19 # 20.
Proof.
  intros x Hx. unfold round2.
  destruct (round_half_even_bounds (x * 100)) as [Hlo Hhi]; [lra|].
  rewrite Zle_Qle in Hlo, Hhi.
  change (inject_Z 30) with 30 in Hlo. change (inject_Z 95) with 95 in Hhi.
  set (r := inject_Z _) in *.
  split.
  - apply Qle_shift_div_l; lra.
  - apply Qle_shift_div_r; lra.
Qed.

(** C6, as stated, fails for an image that is not on disk: the scale
    is the default 1.0, above 0.95. *)
Lemma missing_image_scale_is_one :
  calculate_optimal_scale (fun _ => None)
    (lit "images/nejm_20051013.jpg") 0 (JStr (lit "20051013")) == 1 /\
  19 # 20 < calculate_optimal_scale (fun _ => None)
              (lit "images/nejm_20051013.jpg") 0 (JStr (lit "20051013")).
Proof. split; reflexivity. Qed.

(** C6, as the code has it: for an image that is read, with a height
    that is not zero, the scale lies in [0.3, 0.95] whatever the
    aspect ratio; when the file is missing, cannot be read, or has a
    height of zero, the scale is the default 1.0. *)
Theorem scale_is_clamped_or_default_scale :
  forall images image_path text_height_pt question_id,
  let scale :=
    calculate_optimal_scale images image_path text_height_pt question_id in
  match images image_path with
  | Some (Picture width height) =>
      if (height =? 0)%N then scale = DEFAULT_SCALE
      else 3 # 10 <= scale <= 19 # 20
  | Some Unreadable => scale = DEFAULT_SCALE
  | None => scale = DEFAULT_SCALE
  end.
Proof.
  intros images path h id scale. subst scale.
  unfold calculate_optimal_scale.
  destruct (images path) as [[|width height]|]; try reflexivity.
  destruct (height =? 0)%N; [reflexivity|].
  apply round2_bounds, clamp_bounds.
Qed.

(** Without an image that can be measured the scale is the default. *)
Lemma scale_defaults_to_one :
  forall images image_path text_height_pt question_id,
  images image_path = None \/ images image_path = Some Unreadable
  \/ (exists width, images image_path = Some (Picture width 0)) ->
  calculate_optimal_scale images image_path text_height_pt question_id
  = DEFAULT_SCALE.
Proof.
  intros images path h id [H|[H|[w H]]];
    unfold calculate_optimal_scale; rewrite H; reflexivity.
Qed.

(** The extremes of the aspect ratio: ten to one and one to ten. *)
Example scale_of_extreme_ratios :
  calculate_optimal_scale (fun _ => Some (Picture 1000 100))
    (lit "wide.jpg") 0 JNull == 19 # 20 /\
  calculate_optimal_scale (fun _ => Some (Picture 100 1000))
    (lit "tall.jpg") 0 JNull == 3 # 10.
Proof. split; reflexivity. Qed.

End ScaleProps.

Module RenderProps.
Import Latex DictProps Samples.

Lemma append_items_fold : forall (options : dict str) labels content,
  fold_left
    (fun latex_content option_key =>
       match dget options option_key with
       | Some option_text =>
           latex_content ++ [item_line option_key option_text]
       | None => latex_content
       end) labels content
  = content
    ++ flat_map
         (fun key =>
            match dget options key with
            | Some text => [item_line key text]
            | None => []
            end) labels.
Proof.
  intros options labels.
  induction labels as [|key rest IH]; intros content.
  - cbn. now rewrite app_nil_r.
  - cbn [fold_left flat_map].
    destruct (dget options key) as [text|].
    + rewrite IH, <- app_assoc. reflexivity.
    + apply IH.
Qed.

Lemma append_options_items : forall options latex_content,
  append_options latex_content options
  = latex_content ++ expected_items options.
Proof. intros. apply append_items_fold. Qed.

(** An entry under another key than A to E changes no lookup of a
    rendered key. *)
Lemma other_key_not_looked_up : forall (options : dict str) key text k,
  In k rendered_keys -> ~ In key rendered_keys ->
  dget (dset key text options) k = dget options k.
Proof.
  intros options key text k Hk Hkey. apply dget_dset_other.
  intros ->. contradiction.
Qed.

Lemma expected_items_other_key : forall (options : dict str) key text,
  ~ In key rendered_keys ->
  expected_items (dset key text options) = expected_items options.
Proof.
  intros options key text Hkey. unfold expected_items.
  change [lit "A"; lit "B"; lit "C"; lit "D"; lit "E"] with rendered_keys.
  revert Hkey.
  induction rendered_keys as [|k rest IH]; intros Hkey.
  - reflexivity.
  - cbn [flat_map]. rewrite dget_dset_other.
    + f_equal. apply IH. intros H. apply Hkey. now right.
    + intros ->. apply Hkey. now left.
Qed.

Lemma fold_left_ext_in : forall (A B : Type) (f g : A -> B -> A) l a,
  (forall x y, In y l -> f x y = g x y) ->
  fold_left f l a = fold_left g l a.
Proof.
  intros A B f g l. induction l as [|y l IH]; intros a H.
  - reflexivity.
  - cbn. rewrite H by now left. apply IH. intros x z Hz. apply H. now right.
Qed.

Lemma estimate_text_height_other_key : forall q key text has_answer,
  ~ In key rendered_keys ->
  estimate_text_height (with_option q key text) has_answer
  = estimate_text_height q has_answer.
Proof.
  intros q key text has_answer Hkey. unfold estimate_text_height.
  cbn [q_question q_answer with_option].
  replace (fold_left _ rendered_keys 0)
    with (fold_left
            (fun total k =>
               match dget (options_of q) k with
               | Some option_text => total + Z.max 1 (len option_text / 75 + 1)
               | None => total
               end) rendered_keys 0); [reflexivity|].
  apply fold_left_ext_in. intros total k Hk.
  unfold options_of at 2. cbn [q_options with_option].
  now rewrite other_key_not_looked_up.
Qed.

Lemma question_block_other_key :
  forall images image_scales idx q key text,
  ~ In key rendered_keys ->
  question_block images image_scales idx (with_option q key text)
  = question_block images image_scales idx q.
Proof.
  intros images scales idx q key text Hkey.
  assert (Hblock : options_block (with_option q key text) = options_block q).
  { unfold options_block. rewrite !append_options_items.
    unfold options_of at 1. cbn [q_options with_option].
    now rewrite expected_items_other_key. }
  assert (Himage : forall question_id,
            image_lines images scales (with_option q key text) question_id
            = image_lines images scales q question_id).
  { intros question_id. unfold image_lines.
    cbn [q_image q_answer with_option].
    now rewrite estimate_text_height_other_key. }
  unfold question_block. rewrite Hblock, Himage. reflexivity.
Qed.

Lemma F_is_not_rendered : ~ In (lit "F") rendered_keys.
Proof. cbn. intuition discriminate. Qed.

End RenderProps.

(* ================================================================= *)
(** * Further properties                                              *)
(* ================================================================= *)

Module DateRangeProps.
Import Batch DateProps.

(** What the loop has done when it returns a list. *)
Lemma generate_loop_returns : forall fuel dates current_date end_date result,
  generate_loop fuel dates current_date end_date = Some (Ok result) ->
  exists n,
    result = dates ++ weekly current_date n /\
    (forall k, (k < n)%nat ->
       current_date + ONE_WEEK * Z.of_nat k <= end_date) /\
    end_date < current_date + ONE_WEEK * Z.of_nat n.
Proof.
  induction fuel as [|fuel IH]; intros dates cur end_ result H.
  - discriminate.
  - cbn [generate_loop] in H.
    destruct (Z.leb_spec cur end_) as [Hle|Hgt].
    + destruct (add_timedelta cur ONE_WEEK) as [next|e] eqn:Hadd;
        [|discriminate].
      unfold add_timedelta in Hadd.
      destruct (_ && _); [|discriminate]. injection Hadd as <-.
      apply IH in H. destruct H as (n & -> & Hin & Hout).
      exists (S n). split; [|split].
      * rewrite weekly_S, <- app_assoc. reflexivity.
      * intros [|k] Hk.
        -- change (Z.of_nat 0) with 0. lia.
        -- specialize (Hin k). rewrite Nat2Z.inj_succ. lia.
      * rewrite Nat2Z.inj_succ. lia.
    + injection H as <-. exists O. split; [|split].
      * unfold weekly. cbn [seq map]. now rewrite app_nil_r.
      * intros k Hk. lia.
      * change (Z.of_nat 0) with 0. lia.
Qed.

Lemma weekly_In : forall start n d,
  In d (weekly start n) ->
  exists k, (k < n)%nat /\ d = start + ONE_WEEK * Z.of_nat k.
Proof.
  intros start n d H. unfold weekly in H.
  apply in_map_iff in H. destruct H as (k & <- & Hk).
  apply in_seq in Hk. exists k. split; [lia|reflexivity].
Qed.

(** X1: whenever [generate_date_range] returns a list, every date of
    it lies between the start and the end date, the dates are a week
    apart, and the list is empty exactly when the end date is before
    the start date. *)
Theorem generated_dates_lie_in_range : forall start_date end_date dates,
  generate_date_range start_date end_date = Some (Ok dates) ->
  Forall (fun d => start_date <= d <= end_date) dates /\
  (forall i a b,
     nth_error dates i = Some a -> nth_error dates (S i) = Some b ->
     b = a + ONE_WEEK) /\
  (dates = [] <-> end_date < start_date).
Proof.
  intros start end_ dates H. unfold generate_date_range in H.
  apply generate_loop_returns in H. cbn [app] in H.
  destruct H as (n & -> & Hin & Hout).
  pose proof ONE_WEEK_pos as HW.
  split; [|split].
  - apply Forall_forall. intros d Hd.
    apply weekly_In in Hd. destruct Hd as (k & Hk & ->).
    specialize (Hin k Hk). nia.
  - intros i a b Ha Hb.
    apply weekly_nth in Ha. apply weekly_nth in Hb.
    rewrite Nat2Z.inj_succ in Hb. lia.
  - destruct n as [|n].
    + change (Z.of_nat 0) with 0 in Hout. split; [lia|reflexivity].
    + rewrite weekly_S. split; [discriminate|].
      specialize (Hin O). change (Z.of_nat 0) with 0 in Hin. lia.
Qed.

Lemma generated_dates_lie_in_range_witness :
  Forall (fun d => Calendar.midnight 732232 <= d <= Calendar.midnight 732240)
    [Calendar.midnight 732232; Calendar.midnight 732239] /\
  (forall i a b,
     nth_error [Calendar.midnight 732232; Calendar.midnight 732239] i
       = Some a ->
     nth_error [Calendar.midnight 732232; Calendar.midnight 732239] (S i)
       = Some b ->
     b = a + ONE_WEEK) /\
  ([Calendar.midnight 732232; Calendar.midnight 732239] = [] <->
   Calendar.midnight 732240 < Calendar.midnight 732232).
Proof.
  apply (generated_dates_lie_in_range
           (Calendar.midnight 732232) (Calendar.midnight 732240)).
  vm_compute. reflexivity.
Defined.

Lemma generate_loop_raises : forall n fuel dates current_date end_date,
  (n < fuel)%nat ->
  0 <= current_date ->
  current_date + ONE_WEEK * Z.of_nat n <= end_date ->
  current_date + ONE_WEEK * Z.of_nat n <= DATETIME_MAX ->
  DATETIME_MAX < current_date + ONE_WEEK * Z.of_nat (S n) ->
  generate_loop fuel dates current_date end_date
  = Some (Raise OverflowError).
Proof.
  pose proof ONE_WEEK_pos as HW.
  induction n as [|n IH]; intros fuel dates cur end_ Hfuel Hcur Hend Hmax Hover;
    (destruct fuel as [|fuel]; [lia|]); cbn [generate_loop].
  - change (Z.of_nat 0) with 0 in *. change (Z.of_nat 1) with 1 in *.
    destruct (Z.leb_spec cur end_); [|lia].
    unfold add_timedelta.
    destruct (Z.leb_spec (cur + ONE_WEEK) DATETIME_MAX); [lia|].
    now rewrite andb_false_r.
  - rewrite !Nat2Z.inj_succ in *.
    destruct (Z.leb_spec cur end_); [|nia].
    unfold add_timedelta.
    destruct (Z.leb_spec 0 (cur + ONE_WEEK)); [|lia].
    destruct (Z.leb_spec (cur + ONE_WEEK) DATETIME_MAX); [|nia].
    cbn [andb]. apply IH; lia.
Qed.

(** X2: for valid dates with [start <= end], when the week after the
    last date kept is past [datetime.max], [generate_date_range] raises
    [OverflowError] and returns no list. *)
Theorem generate_date_range_raises_near_max : forall start_date end_date,
  0 <= start_date ->
  start_date <= end_date ->
  end_date <= DATETIME_MAX ->
  DATETIME_MAX
    < start_date + ONE_WEEK * ((end_date - start_date) / ONE_WEEK + 1) ->
  generate_date_range start_date end_date = Some (Raise OverflowError).
Proof.
  intros start end_ Hstart Hle Hend Hover.
  pose proof ONE_WEEK_pos as HW.
  set (q := (end_ - start) / ONE_WEEK) in *.
  assert (Hq : 0 <= q) by (apply Z.div_pos; lia).
  assert (Hlow : ONE_WEEK * q <= end_ - start)
    by (apply Z.mul_div_le; lia).
  unfold generate_date_range.
  apply generate_loop_raises with (n := Z.to_nat q).
  - unfold loop_fuel. fold q. lia.
  - exact Hstart.
  - rewrite Z2Nat.id by exact Hq. lia.
  - rewrite Z2Nat.id by exact Hq. lia.
  - rewrite Nat2Z.inj_succ, Z2Nat.id by exact Hq. lia.
Qed.

Lemma generate_date_range_raises_near_max_witness :
  generate_date_range (Calendar.midnight 3652050) (Calendar.midnight 3652059)
  = Some (Raise OverflowError).
Proof.
  apply (generate_date_range_raises_near_max
           (Calendar.midnight 3652050) (Calendar.midnight 3652059));
    vm_compute; congruence.
Defined.

End DateRangeProps.

Module MergeMoreProps.
Import Batch DictProps MergeProps Samples.

(** Writing to a key the value it already has changes nothing. *)
Lemma dset_same_value : forall V (d : dict V) k v,
  dget d k = Some v -> dset k v d = d.
Proof.
  intros V d k v. induction d as [|[k' v'] d IH]; cbn; intros H.
  - discriminate.
  - destruct (str_eqb k k') eqn:E.
    + now injection H as ->.
    + now rewrite IH.
Qed.

Lemma merge_result_shape : forall downloaded existing_data merged,
  merge_challenge_data downloaded existing_data = Ok merged ->
  (dget existing_data (py_str (dict_get downloaded (lit "id"))) = None /\
   merged = downloaded) \/
  (exists existing,
     dget existing_data (py_str (dict_get downloaded (lit "id")))
       = Some (JDict existing) /\
     merged =
       let answered :=
         if truthy (dict_get existing (lit "answer"))
         then dset (lit "answer") (dict_get existing (lit "answer"))
                downloaded
         else downloaded in
       if truthy (dict_get existing (lit "image"))
       then dset (lit "image") (dict_get existing (lit "image")) answered
       else answered).
Proof.
  intros d e m H. unfold merge_challenge_data in H.
  destruct (dget e _) as [existing|] eqn:E.
  - right. destruct existing as [| | | | |ex]; try discriminate H.
    exists ex. split; [reflexivity|].
    cbn [get bind] in H. injection H as <-. reflexivity.
  - left. injection H as <-. auto.
Qed.

(** X3: [merge_challenge_data] touches no field but [answer] and
    [image], and returns the download as it is when the lookup has no
    record for its id. *)
Theorem merge_touches_answer_and_image_only :
  forall downloaded existing_data merged,
  merge_challenge_data downloaded existing_data = Ok merged ->
  (forall key, key <> lit "answer" -> key <> lit "image" ->
     dget merged key = dget downloaded key) /\
  (dget existing_data (py_str (dict_get downloaded (lit "id"))) = None ->
   merged = downloaded).
Proof.
  intros d e m H.
  destruct (merge_result_shape d e m H) as [[Hnone ->]|(ex & Hex & ->)].
  - split; auto.
  - split; [|congruence].
    intros key Ha Hi. cbv zeta.
    destruct (truthy (dict_get ex (lit "image")));
      destruct (truthy (dict_get ex (lit "answer")));
      rewrite ?dget_dset_other by assumption; reflexivity.
Qed.

Lemma merge_touches_answer_and_image_only_witness :
  (forall key, key <> lit "answer" -> key <> lit "image" ->
     dget (dset (lit "image") (JStr (lit "images/old.jpg"))
             (dset (lit "answer") (JStr (lit "Scurvy")) sample_downloaded))
          key
     = dget sample_downloaded key) /\
  (dget [(lit "20051013", JDict sample_answered)]
        (py_str (dict_get sample_downloaded (lit "id"))) = None ->
   dset (lit "image") (JStr (lit "images/old.jpg"))
     (dset (lit "answer") (JStr (lit "Scurvy")) sample_downloaded)
   = sample_downloaded).
Proof.
  apply (merge_touches_answer_and_image_only sample_downloaded
           [(lit "20051013", JDict sample_answered)]).
  reflexivity.
Defined.

(** X4: merging is idempotent: merging the merged record with the
    same lookup again gives the same record. *)
Theorem merge_twice_is_merge_once :
  forall downloaded existing_data merged,
  merge_challenge_data downloaded existing_data = Ok merged ->
  merge_challenge_data merged existing_data = Ok merged.
Proof.
  intros d e m H.
  destruct (merge_touches_answer_and_image_only d e m H) as [Hframe _].
  assert (Hid : dict_get m (lit "id") = dict_get d (lit "id")).
  { unfold dict_get. rewrite Hframe by discriminate. reflexivity. }
  destruct (merge_result_shape d e m H) as [[Hnone ->]|(ex & Hex & Hm)].
  - exact H.
  - unfold merge_challenge_data. rewrite Hid, Hex. cbn [get bind].
    fold (dict_get ex (lit "answer")). fold (dict_get ex (lit "image")).
    cbv zeta in Hm. f_equal.
    assert (Hne : lit "answer" <> lit "image") by discriminate.
    destruct (truthy (dict_get ex (lit "answer"))) eqn:Ha;
      destruct (truthy (dict_get ex (lit "image"))) eqn:Hi.
    + rewrite (dset_same_value _ m (lit "answer")).
      * apply dset_same_value. subst m. apply dget_dset_same.
      * subst m. rewrite dget_dset_other by exact Hne.
        apply dget_dset_same.
    + apply dset_same_value. subst m. apply dget_dset_same.
    + apply dset_same_value. subst m. apply dget_dset_same.
    + reflexivity.
Qed.

Lemma merge_twice_is_merge_once_witness :
  merge_challenge_data
    (dset (lit "image") (JStr (lit "images/old.jpg"))
       (dset (lit "answer") (JStr (lit "Scurvy")) sample_downloaded))
    [(lit "20051013", JDict sample_answered)]
  = Ok (dset (lit "image") (JStr (lit "images/old.jpg"))
          (dset (lit "answer") (JStr (lit "Scurvy")) sample_downloaded)).
Proof.
  apply (merge_twice_is_merge_once sample_downloaded
           [(lit "20051013", JDict sample_answered)]).
  reflexivity.
Defined.

End MergeMoreProps.

Module RunMoreProps.
Import Batch DictProps MergeProps RunProps MergeMoreProps Samples.

(** Which ids the first loop of [batch_download] keeps: those the
    lookup does not know and those whose record has no truthy image. *)
Definition needs_download (lookup : dict json) (challenge_id : str) : bool :=
  match dget lookup challenge_id with
  | Some (JDict existing) => negb (truthy (dict_get existing (lit "image")))
  | Some _ => false
  | None => true
  end.

Lemma select_downloads_filter :
  forall challenge_ids lookup to_download skipped,
  all_dicts lookup ->
  exists skipped',
    select_downloads lookup challenge_ids to_download skipped
    = Ok (to_download ++ filter (needs_download lookup) challenge_ids,
          skipped').
Proof.
  induction challenge_ids as [|cid rest IH];
    intros lookup acc skipped Hall.
  - cbn. exists skipped. now rewrite app_nil_r.
  - cbn [select_downloads filter]. unfold needs_download at 1.
    destruct (dget lookup cid) as [existing|] eqn:E.
    + destruct (Hall _ _ E) as [ex ->]. cbn [get bind].
      fold (dict_get ex (lit "image")).
      destruct (truthy (dict_get ex (lit "image"))); cbn [negb].
      * apply IH. exact Hall.
      * destruct (IH lookup (acc ++ [cid]) skipped Hall) as [sk ->].
        exists sk. now rewrite <- app_assoc.
    + destruct (IH lookup (acc ++ [cid]) skipped Hall) as [sk ->].
      exists sk. now rewrite <- app_assoc.
Qed.

(** The lookup holds records of the list, each under the text of its
    id, and knows the id of every record. *)
Definition indexes (lookup : dict json) (data : list json) : Prop :=
  (forall key record,
     dget lookup key = Some record ->
     In record data /\
     exists fields,
       record = JDict fields /\
       py_str (dict_get fields (lit "id")) = key) /\
  (forall record,
     In record data ->
     exists fields,
       record = JDict fields /\
       dmem (py_str (dict_get fields (lit "id"))) lookup = true).

Lemma build_lookup_indexes : forall data seen lookup lookup',
  indexes lookup seen ->
  build_lookup lookup data = Ok lookup' ->
  indexes lookup' (seen ++ data).
Proof.
  induction data as [|item rest IH]; intros seen lookup lookup' Hinv H.
  - cbn in H. injection H as <-. now rewrite app_nil_r.
  - cbn [build_lookup] in H.
    destruct item as [| | | | |fields]; try discriminate H.
    cbn [get bind] in H. fold (dict_get fields (lit "id")) in H.
    replace (seen ++ JDict fields :: rest)
      with ((seen ++ [JDict fields]) ++ rest)
      by (rewrite <- app_assoc; reflexivity).
    eapply IH; [|exact H].
    destruct Hinv as [Hkeys Hall]. split.
    + intros key record Hget.
      destruct (str_eq_dec key (py_str (dict_get fields (lit "id"))))
        as [->|Hne].
      * rewrite dget_dset_same in Hget. injection Hget as <-.
        split; [apply in_or_app; right; now left|eauto].
      * rewrite dget_dset_other in Hget by exact Hne.
        destruct (Hkeys _ _ Hget) as [Hin Hrec].
        split; [apply in_or_app; now left|exact Hrec].
    + intros record Hin. apply in_app_or in Hin.
      destruct Hin as [Hin|[<-|[]]].
      * destruct (Hall _ Hin) as (f & -> & Hmem). exists f.
        split; [reflexivity|]. unfold dmem in *.
        destruct (str_eq_dec (py_str (dict_get f (lit "id")))
                    (py_str (dict_get fields (lit "id")))) as [->|Hne].
        -- now rewrite dget_dset_same.
        -- now rewrite dget_dset_other.
      * exists fields. split; [reflexivity|].
        unfold dmem. now rewrite dget_dset_same.
Qed.

(** X5: what [load_existing_data] returns is consistent: the list is
    the list of the file (or empty), every record of the list is a
    dict whose id the lookup knows, and every entry of the lookup is
    a record of the list, stored under the text of its id. *)
Theorem loaded_lookup_indexes_list : forall fs json_file lookup data,
  load_existing_data fs json_file = Ok (lookup, data) ->
  indexes lookup data /\
  (fs json_file = Some (JsonDoc (JList data)) \/
   (lookup = [] /\ data = [])).
Proof.
  intros fs f lookup data H. unfold load_existing_data in H.
  assert (Hnil : indexes [] []).
  { split; [intros k r Hk; discriminate Hk|intros r []]. }
  destruct (fs f) as [[j|]|].
  - destruct j as [| | | |items|d];
      try (injection H as <- <-; split; [exact Hnil|right; auto]).
    destruct (build_lookup [] items) as [lk|e] eqn:E; cbn in H;
      [|discriminate].
    injection H as <- <-. split; [|left; reflexivity].
    apply (build_lookup_indexes items [] [] lk Hnil E).
  - injection H as <- <-. split; [exact Hnil|right; auto].
  - injection H as <- <-. split; [exact Hnil|right; auto].
Qed.

Lemma loaded_lookup_indexes_list_witness :
  indexes [(lit "20051013", stored_record JNull)] [stored_record JNull] /\
  (files (world_with (JsonDoc (JList [stored_record JNull])))
     collection_path
   = Some (JsonDoc (JList [stored_record JNull])) \/
   ([(lit "20051013", stored_record JNull)] = [] /\
    [stored_record JNull] = [])).
Proof.
  apply (loaded_lookup_indexes_list
           (files (world_with (JsonDoc (JList [stored_record JNull]))))
           collection_path).
  reflexivity.
Defined.

Section Run.

Variable strftime_Ymd : datetime -> str.
Variable long_date : str -> option str.
Variable download_question : list str -> str -> result page.

Local Abbreviation download_challenge :=
  (download_challenge long_date download_question).
Local Abbreviation process_downloads :=
  (process_downloads long_date download_question).
Local Abbreviation date_to_challenge_id :=
  (date_to_challenge_id strftime_Ymd).
Local Abbreviation batch_download :=
  (batch_download strftime_Ymd long_date download_question).



(** X7: the requests of a run are, in order, the ids of the given
    dates that the lookup does not know or whose record has no truthy
    image; nothing else is asked of the site. *)
Theorem requests_are_the_missing_ids :
  forall w dates output_file existing_file lookup data,
  load_existing_data (files w) existing_file = Ok (lookup, data) ->
  exists w',
    batch_download w dates output_file existing_file = Ok w' /\
    requests w'
    = requests w
      ++ filter (needs_download lookup) (map date_to_challenge_id dates).
Proof.
  intros w dates out ex lookup data Hload.
  destruct (batch_download_requests strftime_Ymd long_date download_question
              w dates out ex lookup data Hload)
    as (w' & sel & sk & Hrun & Hsel & Hnil & Hcons).
  exists w'. split; [exact Hrun|].
  destruct dates as [|d0 dates'].
  - rewrite (Hnil eq_refl). cbn. now rewrite app_nil_r.
  - rewrite Hcons by discriminate.
    destruct Hsel as [Hsel|Hsel]; [discriminate|].
    pose proof (load_existing_data_dicts _ _ _ _ Hload) as Hall.
    destruct (select_downloads_filter
                (map date_to_challenge_id (d0 :: dates')) lookup [] 0 Hall)
      as [sk' Hf].
    rewrite Hsel in Hf. injection Hf as -> _. reflexivity.
Qed.


End Run.

Lemma requests_are_the_missing_ids_witness :
  exists w',
    batch_download Calendar.strftime_Ymd Calendar.long_date site_up
      (world_with (JsonDoc (JList [stored_record JNull])))
      [first_challenge; first_challenge + ONE_WEEK]
      collection_path collection_path = Ok w' /\
    requests w'
    = requests (world_with (JsonDoc (JList [stored_record JNull])))
      ++ filter (needs_download [(lit "20051013", stored_record JNull)])
           (map (date_to_challenge_id Calendar.strftime_Ymd)
                [first_challenge; first_challenge + ONE_WEEK]).
Proof.
  apply (requests_are_the_missing_ids
           Calendar.strftime_Ymd Calendar.long_date site_up
           (world_with (JsonDoc (JList [stored_record JNull])))
           [first_challenge; first_challenge + ONE_WEEK]
           collection_path collection_path
           [(lit "20051013", stored_record JNull)] [stored_record JNull]).
  reflexivity.
Defined.


End RunMoreProps.

Module ExtractProps.
Import Downloader DictProps HtmlProps TextProps Samples.

Lemma str_in_true : forall x xs, str_in x xs = true -> In x xs.
Proof.
  intros x xs H. unfold str_in in H. apply existsb_exists in H.
  destruct H as (y & Hy & Heq). apply str_eqb_eq in Heq. now subst.
Qed.

Lemma str_in_not_in : forall x xs, str_in x xs = false -> ~ In x xs.
Proof.
  intros x xs H Hin. unfold str_in in H.
  assert (Ht : existsb (str_eqb x) xs = true).
  { apply existsb_exists. exists x. split; [exact Hin|apply str_eqb_refl]. }
  congruence.
Qed.

Lemma label_not_used_before : forall idx key,
  nth_error option_keys idx = Some key ->
  ~ In key (firstn idx option_keys) /\
  firstn (S idx) option_keys = firstn idx option_keys ++ [key].
Proof.
  intros idx key Hnth.
  do 6 (destruct idx as [|idx];
        [ injection Hnth as <-; split; cbn; intuition discriminate | ]).
  destruct idx; discriminate.
Qed.

(** What the loop of strategy A keeps true of the options. *)
Definition html_options_ok (idx : nat) (options : dict str) : Prop :=
  incl (keys options) (firstn idx option_keys) /\
  NoDup (keys options) /\
  NoDup (values options) /\
  Forall (fun text => 5 < len text) (values options).

Lemma html_options_loop_ok : forall option_spans idx options,
  html_options_ok idx options ->
  exists idx', html_options_ok idx' (html_options_loop idx option_spans options).
Proof.
  induction option_spans as [|span rest IH]; intros idx options Hok.
  - exists idx. exact Hok.
  - cbn [html_options_loop].
    destruct (nth_error option_keys idx) as [key|] eqn:Hnth;
      [|exists idx; exact Hok].
    destruct (label_not_used_before idx key Hnth) as [Hnew Hfirst].
    destruct Hok as (Hincl & Hkeys & Hvals & Hlen).
    apply IH.
    destruct (5 <? len (strip (get_text span))) eqn:Hlong; cbn [andb].
    + destruct (str_in (strip (get_text span)) (values options)) eqn:Hin;
        cbn [negb].
      * repeat split; auto.
        rewrite Hfirst. intros k Hk. apply in_or_app. left. auto.
      * assert (Hfresh : dget options key = None).
        { apply dget_none_keys. intros Hk. apply Hnew, Hincl, Hk. }
        rewrite dset_fresh by exact Hfresh.
        assert (Hnotin : ~ In (strip (get_text span)) (values options))
          by (apply str_in_not_in; exact Hin).
        repeat split.
        -- unfold keys. rewrite map_app, Hfirst. cbn [map fst].
           apply incl_app; [|intros k [<-|[]]; apply in_or_app; right; now left].
           intros k Hk. apply in_or_app. left. apply Hincl, Hk.
        -- unfold keys. rewrite map_app. cbn [map fst].
           apply NoDup_Add with (a := key) (l := map fst options).
           ++ rewrite <- (app_nil_r (map fst options)) at 1. apply Add_app.
           ++ split; [exact Hkeys|]. intros Hk. apply Hnew, Hincl, Hk.
        -- unfold values. rewrite map_app. cbn [map snd].
           apply NoDup_Add with (a := strip (get_text span))
                                (l := map snd options).
           ++ rewrite <- (app_nil_r (map snd options)) at 1. apply Add_app.
           ++ split; [exact Hvals|exact Hnotin].
        -- unfold values. rewrite map_app. cbn [map snd].
           apply Forall_app. split; [exact Hlen|].
           constructor; [now apply Z.ltb_lt|constructor].
    + repeat split; auto.
      rewrite Hfirst. intros k Hk. apply in_or_app. left. auto.
Qed.


(** Strategy A gives either nothing at all, or a question of five
    characters at least with the options its loop collected. *)
Lemma html_result_shape : forall soup,
  _extract_question_and_options_html soup = (None, []) \/
  exists question_text option_spans,
    5 <= len question_text /\
    _extract_question_and_options_html soup
    = (Some question_text, html_options_loop 0 option_spans []).
Proof.
  intros soup. unfold _extract_question_and_options_html.
  destruct (find _ _ soup) as [content|]; [|now left].
  destruct (find _ _ content) as [right_area|]; [|now left].
  match goal with
  | |- context [match ?q with Some _ => _ | None => (None, [])  end] =>
      destruct q as [question_text|]; [|now left]
  end.
  destruct (Z.ltb_spec (len question_text) 5); [now left|].
  destruct (find _ _ right_area) as [answers|]; [|now left].
  right. eauto.
Qed.

(** X9: strategy A returns at most six options, under distinct labels
    among A to F, with pairwise distinct texts of more than five
    characters each; and it returns no option without a question. *)
Theorem html_options_are_distinct_and_long : forall soup,
  let options := snd (_extract_question_and_options_html soup) in
  (List.length options <= 6)%nat /\
  incl (keys options) option_keys /\
  NoDup (keys options) /\
  NoDup (values options) /\
  Forall (fun text => 5 < len text) (values options) /\
  (fst (_extract_question_and_options_html soup) = None \/
   exists question_text,
     fst (_extract_question_and_options_html soup) = Some question_text /\
     5 <= len question_text).
Proof.
  intros soup options. subst options.
  assert (Hstart : html_options_ok 0 []).
  { repeat split; try constructor. intros k []. }
  assert (Hshape : forall options idx,
            html_options_ok idx options ->
            (List.length options <= 6)%nat /\
            incl (keys options) option_keys /\
            NoDup (keys options) /\ NoDup (values options) /\
            Forall (fun text => 5 < len text) (values options)).
  { intros options idx (Hincl & Hkeys & Hvals & Hlen).
    assert (Hin : incl (keys options) option_keys).
    { intros k Hk. apply Hincl in Hk.
      rewrite <- (firstn_skipn idx option_keys).
      apply in_or_app. now left. }
    repeat split; auto.
    replace (List.length options) with (List.length (keys options))
      by (unfold keys; apply length_map).
    change 6%nat with (List.length option_keys).
    apply NoDup_incl_length; assumption. }
  destruct (html_result_shape soup) as [->|(q & spans & Hq & ->)];
    cbn [fst snd].
  - destruct (Hshape [] O Hstart) as (H1 & H2 & H3 & H4 & H5).
    repeat split; auto.
  - destruct (html_options_loop_ok spans 0 [] Hstart) as [idx Hok].
    destruct (Hshape _ _ Hok) as (H1 & H2 & H3 & H4 & H5).
    repeat split; eauto.
Qed.

Section Fallback.

Variable lower : str -> str.

(** X10: strategy A is preferred: whenever it finds an option, what
    [download_questions] returns is its result, whatever the text of
    the page. *)
Theorem html_result_is_preferred : forall soup text,
  snd (_extract_question_and_options_html soup) <> [] ->
  download_questions lower soup text
  = _extract_question_and_options_html soup.
Proof.
  intros soup text Hopts. unfold download_questions.
  destruct (html_result_shape soup) as [E|(q & spans & Hq & E)];
    rewrite E in Hopts |- *; cbn [snd] in Hopts.
  - contradiction.
  - destruct (html_options_loop 0 spans []) as [|o os]; [contradiction|].
    destruct q as [|c q]; [cbn in Hq; lia|reflexivity].
Qed.

Lemma find_vignette_long : forall paragraphs i para j,
  find_vignette lower i paragraphs = Some (para, j) -> 50 < len para.
Proof.
  induction paragraphs as [|p ps IH]; intros i para j H.
  - discriminate.
  - cbn [find_vignette] in H.
    destruct (50 <? len p) eqn:Hlong; cbn [andb] in H.
    + destruct (existsb _ clinical_keywords).
      * injection H as <- _. now apply Z.ltb_lt.
      * eapply IH; eauto.
    + eapply IH; eauto.
Qed.

Lemma dset_values_keep : forall (P : str -> Prop) (d : dict str) k v,
  Forall P (values d) -> P v -> Forall P (values (dset k v d)).
Proof.
  intros P d k v Hd Hv. induction d as [|[k' v'] d IH]; cbn.
  - constructor; [exact Hv|constructor].
  - cbn in Hd. inversion Hd; subst.
    destruct (str_eqb k k'); cbn; constructor; auto.
Qed.

Lemma text_options_loop_long :
  forall line_order line_counts options option_idx,
  Forall (fun line => 15 < len line /\
                      mentions lower feedback_phrases line = false)
         (values options) ->
  Forall (fun line => 15 < len line /\
                      mentions lower feedback_phrases line = false)
         (values (text_options_loop lower line_order line_counts
                    options option_idx)).
Proof.
  induction line_order as [|line rest IH]; intros lc options idx H.
  - exact H.
  - cbn [text_options_loop].
    destruct (nth_error option_keys idx) as [key|]; [|exact H].
    destruct (2 <=? _); cbn [andb]; [|now apply IH].
    destruct (15 <? len line) eqn:Hlong; [|now apply IH].
    destruct (mentions lower feedback_phrases line) eqn:Hf; cbn [negb];
      [now apply IH|].
    apply IH. apply dset_values_keep; [exact H|].
    split; [now apply Z.ltb_lt|exact Hf].
Qed.

(** X11: strategy B returns a question of more than 50 characters or
    none, no option without a question, and only options of more than
    15 characters that carry none of the feedback phrases. *)
Theorem text_result_is_long_enough : forall full_text,
  let result := _extract_question_and_options_text lower full_text in
  (result = (None, []) \/
   exists question_text,
     fst result = Some question_text /\ 50 < len question_text) /\
  Forall (fun line => 15 < len line /\
                      mentions lower feedback_phrases line = false)
         (values (snd result)).
Proof.
  intros full_text result. subst result.
  unfold _extract_question_and_options_text.
  destruct (filter _ (map strip (split_paragraphs _))) as [|p ps];
    [split; [now left|constructor]|].
  destruct (find_vignette lower 0 (p :: ps)) as [[para i]|] eqn:Hv.
  - apply find_vignette_long in Hv.
    destruct (count_lines lower _ [] []) as [lc lo].
    cbn [fst snd]. split; [right; eauto|].
    apply text_options_loop_long. constructor.
  - cbv beta iota.
    destruct (List.find (fun para => 50 <? len para) (p :: ps))
      as [para|] eqn:Hf; [|split; [now left|constructor]].
    apply find_some in Hf. destruct Hf as [_ Hlong].
    apply Z.ltb_lt in Hlong.
    destruct (count_lines lower _ [] []) as [lc lo].
    cbn [fst snd]. split; [right; eauto|].
    apply text_options_loop_long. constructor.
Qed.

(** X12: [download_questions] never returns options without a
    question, and a question it returns has five characters at
    least. *)
Theorem no_options_without_question : forall soup text,
  let result := download_questions lower soup text in
  (fst result = None -> snd result = []) /\
  (forall question_text,
     fst result = Some question_text -> 5 <= len question_text).
Proof.
  intros soup text result. subst result. unfold download_questions.
  destruct (text_result_is_long_enough text) as [Htext _].
  assert (Hfallback :
    (fst (_extract_question_and_options_text lower text) = None ->
     snd (_extract_question_and_options_text lower text) = []) /\
    (forall q, fst (_extract_question_and_options_text lower text) = Some q ->
               5 <= len q)).
  { cbv zeta in Htext. destruct Htext as [->|(q & Hq & Hlen)].
    - split; [reflexivity|discriminate].
    - rewrite Hq. split; [discriminate|].
      intros q' Heq. injection Heq as <-. lia. }
  destruct (html_result_shape soup) as [->|(q & spans & Hq & ->)].
  - exact Hfallback.
  - destruct q as [|c q]; [exact Hfallback|].
    destruct (html_options_loop 0 spans []) as [|o os];
      [exact Hfallback|].
    cbn [fst snd]. split; [discriminate|].
    intros q' Heq. injection Heq as <-. exact Hq.
Qed.

End Fallback.

Lemma html_result_is_preferred_witness :
  download_questions lower_latin
    (challenge_page
       [ option_span (lit "Psoriasis"); option_span (lit "Tinea corporis") ])
    (lit "no question here")
  = _extract_question_and_options_html
      (challenge_page
         [ option_span (lit "Psoriasis");
           option_span (lit "Tinea corporis") ]).
Proof.
  apply (html_result_is_preferred lower_latin
           (challenge_page
              [ option_span (lit "Psoriasis");
                option_span (lit "Tinea corporis") ])
           (lit "no question here")).
  vm_compute. discriminate.
Defined.

End ExtractProps.

Module EscapeProps.
Import Latex.

(** The replacements applied one after the other. *)
Definition apply_pairs (pairs : list (str * str)) (text : str) : str :=
  fold_left (fun text pair => replace (fst pair) (snd pair) text) pairs text.

Lemma escape_latex_pairs : forall text,
  escape_latex text
  = match text with
    | [] => []
    | _ => apply_pairs replacements (filter kept text)
    end.
Proof. intros [|c text]; reflexivity. Qed.

Lemma apply_pairs_app : forall first_pairs last_pairs text,
  apply_pairs (first_pairs ++ last_pairs) text
  = apply_pairs last_pairs (apply_pairs first_pairs text).
Proof. intros. unfold apply_pairs. apply fold_left_app. Qed.




(** The characters that [escape_latex] rewrites. *)
Definition rewritten : list char :=
  [92; 38; 37; 36; 35; 95; 123; 125; 126; 94; 8211; 8212; 8722]%N.

Lemma startswith_incl : forall p s,
  startswith s p = true -> incl p s.
Proof.
  induction p as [|a p IH]; intros s H x Hx.
  - destruct Hx.
  - destruct s as [|b s]; [discriminate|]. cbn in H.
    apply andb_prop in H. destruct H as [Hab Hrest].
    apply N.eqb_eq in Hab. subst b.
    destruct Hx as [<-|Hx]; [now left|right; eapply IH; eauto].
Qed.

(** A pattern with a character the text does not hold is not found. *)
Lemma replace_absent : forall old new s c,
  In c old -> ~ In c s -> replace old new s = s.
Proof.
  intros old new s c Hold. unfold replace.
  induction s as [|x r IH]; intros Hs.
  - reflexivity.
  - cbn [replace_from].
    destruct (startswith (x :: r) old) eqn:E.
    + apply startswith_incl in E. exfalso. apply Hs, E, Hold.
    + f_equal. apply IH. intros H. apply Hs. now right.
Qed.

Lemma startswith_nil : forall s, startswith s [] = true.
Proof. intros [|c r]; reflexivity. Qed.

(** Replacing a character by itself changes nothing. *)
Lemma replace_by_itself : forall o s, replace [o] [o] s = s.
Proof.
  intros o s. unfold replace. induction s as [|x r IH].
  - reflexivity.
  - cbn [replace_from startswith]. rewrite startswith_nil.
    destruct (N.eqb_spec o x) as [->|Hne]; cbn [andb app length pred].
    + now rewrite IH.
    + now rewrite IH.
Qed.

Lemma replace_rewritten_absent : forall old new s,
  existsb (fun c => existsb (N.eqb c) rewritten) old = true ->
  (forall code, In code rewritten -> ~ In code s) ->
  replace old new s = s.
Proof.
  intros old new s Hold Hs.
  apply existsb_exists in Hold. destruct Hold as (c & Hc & Hr).
  apply existsb_exists in Hr. destruct Hr as (c' & Hc' & Heq).
  apply N.eqb_eq in Heq. subst c'.
  apply (replace_absent old new s c Hc). now apply Hs.
Qed.

Lemma apply_pairs_fixed : forall pairs text,
  Forall (fun pair => replace (fst pair) (snd pair) text = text) pairs ->
  apply_pairs pairs text = text.
Proof.
  intros pairs text H. induction H as [|pair rest Hp _ IH].
  - reflexivity.
  - cbn [apply_pairs fold_left]. rewrite Hp. exact IH.
Qed.

Lemma filter_all : forall (f : char -> bool) s,
  Forall (fun c => f c = true) s -> filter f s = s.
Proof.
  intros f s H. induction H as [|c s Hc _ IH]; cbn.
  - reflexivity.
  - now rewrite Hc, IH.
Qed.

(** X14: a text without any of the rewritten characters (backslash,
    ampersand, percent, dollar, hash, underscore, braces, tilde, caret,
    the dashes and the minus sign) and without removed characters
    comes back unchanged. *)
Theorem plain_text_is_unchanged : forall text,
  Forall (fun code => kept code = true) text ->
  Forall (fun code => ~ In code rewritten) text ->
  escape_latex text = text.
Proof.
  intros text Hkept Hplain. rewrite escape_latex_pairs.
  destruct text as [|c0 text0]; [reflexivity|].
  rewrite filter_all by exact Hkept.
  set (text := c0 :: text0) in *.
  assert (Habsent : forall code, In code rewritten -> ~ In code text).
  { intros code Hc Hin. rewrite Forall_forall in Hplain.
    exact (Hplain code Hin Hc). }
  apply apply_pairs_fixed.
  unfold replacements.
  repeat (constructor;
          [ cbn [fst snd];
            first [ apply replace_by_itself
                  | apply replace_rewritten_absent;
                    [ vm_compute; reflexivity | exact Habsent ] ] | ]).
  constructor.
Qed.

Lemma plain_text_is_unchanged_witness :
  escape_latex (lit "What is the diagnosis?") = lit "What is the diagnosis?".
Proof.
  apply (plain_text_is_unchanged (lit "What is the diagnosis?")).
  - repeat (constructor; [reflexivity|]). constructor.
  - repeat (constructor; [cbn; intuition discriminate|]). constructor.
Defined.


(** Every occurrence of [c] in [s] comes right after a backslash;
    [after_backslash] tells whether [s] itself does. *)
Fixpoint escaped_after (after_backslash : bool) (c : char) (s : str)
    : bool :=
  match s with
  | [] => true
  | x :: r =>
      (negb (x =? c)%N || after_backslash)
      && escaped_after (x =? 92)%N c r
  end.

(** A replacement of one character that is neither the backslash nor
    [c], by a text without [c]. *)
Definition safe_for (c : char) (pair : str * str) : bool :=
  match fst pair with
  | [o] =>
      negb (o =? 92)%N && negb (o =? c)%N
      && negb (existsb (N.eqb c) (snd pair))
  | _ => false
  end.

Lemma replace_single : forall o new s,
  replace [o] new s
  = flat_map (fun x => if (o =? x)%N then new else [x]) s.
Proof.
  intros o new s. unfold replace. induction s as [|x r IH].
  - reflexivity.
  - cbn [replace_from startswith flat_map]. rewrite startswith_nil.
    destruct (o =? x)%N; cbn [andb length pred app]; now rewrite IH.
Qed.

Lemma escaped_after_skip : forall c new t,
  existsb (N.eqb c) new = false ->
  (forall b, escaped_after b c t = true) ->
  forall b, escaped_after b c (new ++ t) = true.
Proof.
  intros c new t. induction new as [|y new IH]; intros Hnew Ht b.
  - apply Ht.
  - cbn [existsb] in Hnew. apply orb_false_elim in Hnew.
    destruct Hnew as [Hy Hnew]. cbn [app escaped_after].
    rewrite (N.eqb_sym y c), Hy. cbn [negb orb andb]. now apply IH.
Qed.

Lemma escaped_after_safe : forall c o new,
  (o =? 92)%N = false -> (o =? c)%N = false ->
  existsb (N.eqb c) new = false ->
  forall s b b',
    (b = true -> b' = true) ->
    escaped_after b c s = true ->
    escaped_after b' c
      (flat_map (fun x => if (o =? x)%N then new else [x]) s) = true.
Proof.
  intros c o new Ho92 Hoc Hnew.
  induction s as [|x r IH]; intros b b' Hb H.
  - reflexivity.
  - cbn [escaped_after] in H. apply andb_prop in H.
    destruct H as [Hx Hr]. cbn [flat_map].
    destruct (N.eqb_spec o x) as [<-|Hne].
    + rewrite Ho92 in Hr.
      apply escaped_after_skip; [exact Hnew|].
      intros b''. apply (IH false b''); [discriminate|exact Hr].
    + cbn [app escaped_after]. apply andb_true_intro. split.
      * destruct (negb (x =? c)%N); [reflexivity|].
        cbn [orb] in Hx |- *. now apply Hb.
      * apply (IH (x =? 92)%N); auto.
Qed.

Lemma escaped_after_own : forall c,
  (c =? 92)%N = false ->
  forall s b,
    escaped_after b c
      (flat_map (fun x => if (c =? x)%N then [92%N; c] else [x]) s) = true.
Proof.
  intros c Hc. induction s as [|x r IH]; intros b.
  - reflexivity.
  - cbn [flat_map]. destruct (N.eqb_spec c x) as [<-|Hne].
    + cbn [app escaped_after]. rewrite (N.eqb_sym 92 c), Hc.
      rewrite N.eqb_refl. cbn [negb orb andb]. apply IH.
    + cbn [app escaped_after].
      assert (Hx : (x =? c)%N = false) by (apply N.eqb_neq; congruence).
      rewrite Hx. cbn [negb orb andb]. apply IH.
Qed.

Lemma apply_pairs_safe : forall c pairs s,
  forallb (safe_for c) pairs = true ->
  escaped_after false c s = true ->
  escaped_after false c (apply_pairs pairs s) = true.
Proof.
  intros c pairs. induction pairs as [|[old new] rest IH]; intros s Hsafe Hs.
  - exact Hs.
  - cbn [forallb] in Hsafe. apply andb_prop in Hsafe.
    destruct Hsafe as [Hp Hrest].
    cbn [apply_pairs fold_left fst snd]. apply IH; [exact Hrest|].
    unfold safe_for in Hp. cbn [fst snd] in Hp.
    destruct old as [|o [|o' old']]; try discriminate Hp.
    apply andb_prop in Hp. destruct Hp as [Hp Hnew].
    apply andb_prop in Hp. destruct Hp as [Ho92 Hoc].
    apply negb_true_iff in Ho92, Hoc, Hnew.
    rewrite replace_single.
    apply (escaped_after_safe c o new Ho92 Hoc Hnew s false false);
      auto.
Qed.

(** Once [c] has had its own replacement, the safe replacements that
    follow keep it escaped. *)
Lemma apply_pairs_escapes : forall c before after s,
  (c =? 92)%N = false ->
  forallb (safe_for c) after = true ->
  escaped_after false c
    (apply_pairs (before ++ ([c], [92%N; c]) :: after) s) = true.
Proof.
  intros c before after s Hc Hsafe.
  rewrite apply_pairs_app.
  change (apply_pairs (([c], [92%N; c]) :: after) ?t)
    with (apply_pairs after (replace [c] [92%N; c] t)).
  apply apply_pairs_safe; [exact Hsafe|].
  rewrite replace_single. now apply escaped_after_own.
Qed.

Lemma startswith_app : forall p s,
  startswith s p = true -> exists rest, s = p ++ rest.
Proof.
  induction p as [|a p IH]; intros s H.
  - exists s. reflexivity.
  - destruct s as [|b s]; [discriminate|]. cbn in H.
    apply andb_prop in H. destruct H as [Hab Hrest].
    apply N.eqb_eq in Hab. subst b.
    destruct (IH s Hrest) as [rest ->]. now exists rest.
Qed.

Lemma escaped_after_factor : forall c a pre t b,
  escaped_after b c (pre ++ a :: c :: t) = true -> a = 92%N.
Proof.
  intros c a pre t. induction pre as [|x pre IH]; intros b H.
  - cbn [app escaped_after] in H.
    apply andb_prop in H. destruct H as [_ H].
    apply andb_prop in H. destruct H as [H _].
    rewrite N.eqb_refl in H. cbn [negb orb] in H.
    now apply N.eqb_eq in H.
  - cbn [app escaped_after] in H.
    apply andb_prop in H. destruct H as [_ H]. eapply IH; eauto.
Qed.

(** A pattern in which [c] follows another character than the
    backslash is not found in a text where [c] is escaped. *)
Lemma replace_unescaped_pattern : forall c a pre post new s b,
  a <> 92%N ->
  escaped_after b c s = true ->
  replace (pre ++ a :: c :: post) new s = s.
Proof.
  intros c a pre post new s b Ha. unfold replace. revert b.
  induction s as [|x r IH]; intros b H.
  - reflexivity.
  - cbn [replace_from].
    destruct (startswith (x :: r) _) eqn:E.
    + apply startswith_app in E. destruct E as [rest E].
      rewrite E, <- app_assoc in H. cbn [app] in H.
      apply escaped_after_factor in H. contradiction.
    + f_equal. cbn [escaped_after] in H.
      apply andb_prop in H. destruct H as [_ H]. eapply IH; eauto.
Qed.

(** The characters that are escaped by a backslash before them. *)
Definition backslash_escaped : list char := [38; 37; 36; 35; 95]%N.

Lemma first_ten_escape : forall c s,
  In c backslash_escaped ->
  escaped_after false c (apply_pairs (firstn 10 replacements) s) = true.
Proof.
  intros c s Hc. unfold backslash_escaped in Hc.
  destruct Hc as [<-|[<-|[<-|[<-|[<-|[]]]]]].
  - apply (apply_pairs_escapes 38%N (firstn 1 replacements)
             (firstn 8 (skipn 2 replacements)) s); reflexivity.
  - apply (apply_pairs_escapes 37%N (firstn 2 replacements)
             (firstn 7 (skipn 3 replacements)) s); reflexivity.
  - apply (apply_pairs_escapes 36%N (firstn 3 replacements)
             (firstn 6 (skipn 4 replacements)) s); reflexivity.
  - apply (apply_pairs_escapes 35%N (firstn 4 replacements)
             (firstn 5 (skipn 5 replacements)) s); reflexivity.
  - apply (apply_pairs_escapes 95%N (firstn 5 replacements)
             (firstn 4 (skipn 6 replacements)) s); reflexivity.
Qed.

(** X15: in what [escape_latex] returns, every ampersand, percent
    sign, dollar sign, hash and underscore comes right after a
    backslash. *)
Theorem special_characters_are_escaped : forall text,
  Forall (fun c => escaped_after false c (escape_latex text) = true)
         backslash_escaped.
Proof.
  intros text. apply Forall_forall. intros c Hc.
  rewrite escape_latex_pairs.
  destruct text as [|c0 text0]; [reflexivity|].
  set (s := filter kept (c0 :: text0)).
  change replacements
    with (firstn 10 replacements
          ++ [nth 10 replacements ([], [])] ++ skipn 11 replacements).
  rewrite !apply_pairs_app.
  change (apply_pairs [nth 10 replacements ([], [])] ?t)
    with (replace (fst (nth 10 replacements ([], [])))
                  (snd (nth 10 replacements ([], []))) t).
  change (fst (nth 10 replacements ([], [])))
    with ((lit ", r" ++ DQUOTE ++ lit "'" ++ DQUOTE ++ lit "), ")
          ++ 32%N :: 35%N
             :: (lit " Right single quotation mark" ++ [LF]
                 ++ lit "        (")).
  rewrite (replace_unescaped_pattern 35%N 32%N _ _ _ _ false);
    [|discriminate|apply first_ten_escape; cbn; tauto].
  apply apply_pairs_safe; [|now apply first_ten_escape].
  unfold backslash_escaped in Hc.
  destruct Hc as [<-|[<-|[<-|[<-|[<-|[]]]]]]; reflexivity.
Qed.

End EscapeProps.

Module ScaleMoreProps.
Import Latex ScaleProps Samples.
Local Open Scope Q_scope.

Lemma py_min_compat : forall a x y, x == y -> py_min a x == py_min a y.
Proof.
  intros a x y H. unfold py_min.
  destruct (Qlt_le_dec x a); destruct (Qlt_le_dec y a); lra.
Qed.

Lemma py_max_compat : forall a x y, x == y -> py_max a x == py_max a y.
Proof.
  intros a x y H. unfold py_max.
  destruct (Qlt_le_dec a x); destruct (Qlt_le_dec a y); lra.
Qed.

Lemma round2_compat : forall x y, x == y -> round2 x = round2 y.
Proof.
  intros x y H. unfold round2, round_half_even.
  assert (H100 : x * 100 == y * 100) by (rewrite H; reflexivity).
  rewrite (Qfloor_comp _ _ H100).
  assert (Hc : Qcompare (x * 100 - inject_Z (Qfloor (y * 100))) (1 # 2)
               = Qcompare (y * 100 - inject_Z (Qfloor (y * 100))) (1 # 2)).
  { apply Qcompare_comp; [rewrite H100|]; reflexivity. }
  rewrite Hc. reflexivity.
Qed.

Lemma aspect_ratio_compat : forall w1 h1 w2 h2 : N,
  h1 <> 0%N -> h2 <> 0%N -> (w1 * h2 = w2 * h1)%N ->
  inject_Z (Z.of_N w1) / inject_Z (Z.of_N h1)
  == inject_Z (Z.of_N w2) / inject_Z (Z.of_N h2).
Proof.
  intros w1 h1 w2 h2 H1 H2 H.
  assert (Hz : (Z.of_N w1 * Z.of_N h2 = Z.of_N w2 * Z.of_N h1)%Z) by lia.
  assert (Hq : inject_Z (Z.of_N w1) * inject_Z (Z.of_N h2)
               == inject_Z (Z.of_N w2) * inject_Z (Z.of_N h1)).
  { rewrite <- !inject_Z_mult. now rewrite Hz. }
  assert (N1 : ~ inject_Z (Z.of_N h1) == 0).
  { change 0 with (inject_Z 0). rewrite inject_Z_injective. lia. }
  assert (N2 : ~ inject_Z (Z.of_N h2) == 0).
  { change 0 with (inject_Z 0). rewrite inject_Z_injective. lia. }
  set (a := inject_Z (Z.of_N w1)) in *. set (b := inject_Z (Z.of_N h1)) in *.
  set (c := inject_Z (Z.of_N w2)) in *. set (d := inject_Z (Z.of_N h2)) in *.
  apply (Qmult_inj_r _ _ (b * d)).
  - intros Hbd. apply Qmult_integral in Hbd. tauto.
  - transitivity (a * d); [field; exact N1|].
    rewrite Hq. field. exact N2.
Qed.

(** X16: the scale depends on the aspect ratio of the image alone:
    two images that are read with the same ratio of width to height
    get the same scale, whatever the text height estimates and the
    question ids passed. *)
Theorem scale_depends_on_aspect_ratio_only :
  forall images1 path1 text_height1 id1 width1 height1
         images2 path2 text_height2 id2 width2 height2,
  images1 path1 = Some (Picture width1 height1) ->
  images2 path2 = Some (Picture width2 height2) ->
  height1 <> 0%N -> height2 <> 0%N ->
  (width1 * height2 = width2 * height1)%N ->
  calculate_optimal_scale images1 path1 text_height1 id1
  = calculate_optimal_scale images2 path2 text_height2 id2.
Proof.
  intros images1 path1 t1 id1 w1 h1 images2 path2 t2 id2 w2 h2
         E1 E2 H1 H2 Hratio.
  unfold calculate_optimal_scale. rewrite E1, E2.
  pose proof H1 as H1'. pose proof H2 as H2'.
  apply N.eqb_neq in H1', H2'. rewrite H1', H2'.
  pose proof (aspect_ratio_compat w1 h1 w2 h2 H1 H2 Hratio) as Ha.
  set (a1 := inject_Z (Z.of_N w1) / inject_Z (Z.of_N h1)) in *.
  set (a2 := inject_Z (Z.of_N w2) / inject_Z (Z.of_N h2)) in *.
  apply round2_compat, py_max_compat, py_min_compat.
  destruct (Qlt_le_dec _ (_ * a1)) as [L1|L1];
    destruct (Qlt_le_dec _ (_ * a2)) as [L2|L2].
  - reflexivity.
  - rewrite Ha in L1. lra.
  - rewrite Ha in L1. lra.
  - rewrite Ha. reflexivity.
Qed.

Lemma scale_depends_on_aspect_ratio_only_witness :
  calculate_optimal_scale (fun _ => Some (Picture 800 600))
    (lit "images/a.jpg") 100 (JStr (lit "20051013"))
  = calculate_optimal_scale (fun _ => Some (Picture 400 300))
      (lit "images/b.jpg") 300 (JStr (lit "20051020")).
Proof.
  apply (scale_depends_on_aspect_ratio_only
           (fun _ => Some (Picture 800 600)) (lit "images/a.jpg") 100
           (JStr (lit "20051013")) 800%N 600%N
           (fun _ => Some (Picture 400 300)) (lit "images/b.jpg") 300
           (JStr (lit "20051020")) 400%N 300%N);
    first [reflexivity | discriminate].
Defined.

End ScaleMoreProps.

Module CliProps.
Import Batch Cli DateProps DateRangeProps Samples.

Section Commands.

Variable parse_date_string : str -> option datetime.
Variable today : str.

(** X17: [main] of [batch_download.py] ignores which dates are
    listed with [-d]: with a list it either stops on the check of the
    arguments or goes on with the range from the default start date
    to today, and it does the same for every other list. *)
Theorem listed_dates_are_ignored : forall args,
  given (dates args) = true ->
  today <> [] ->
  (main parse_date_string today args = Some Returns \/
   main parse_date_string today args
   = range_action parse_date_string default_start today (output args)) /\
  (forall other,
     given (Some other) = true ->
     main parse_date_string today
       {| start_date := start_date args; end_date := end_date args;
          dates := Some other; output := output args |}
     = main parse_date_string today args).
Proof.
  intros args Hgiven Htoday. split.
  - unfold main. rewrite Hgiven. cbn [andb].
    destruct (str_eqb (start_date args) default_start) eqn:Hs;
      [|left; reflexivity].
    destruct (str_eqb (end_date args) today) eqn:He;
      [|left; reflexivity].
    cbn [negb orb]. right.
    apply DictProps.str_eqb_eq in Hs, He. rewrite Hs, He.
    destruct today as [|c t]; [contradiction|]. reflexivity.
  - intros other Hother. unfold main.
    cbn [start_date end_date dates output].
    rewrite Hgiven, Hother. cbn [andb].
    destruct (str_eqb (start_date args) default_start) eqn:Hs;
      [|reflexivity].
    destruct (str_eqb (end_date args) today) eqn:He; [|reflexivity].
    cbn [negb orb].
    apply DictProps.str_eqb_eq in Hs, He. rewrite Hs, He.
    destruct today as [|c t]; [contradiction|]. reflexivity.
Qed.

Lemma range_action_dates : forall start_date end_date output dates out,
  range_action parse_date_string start_date end_date output
    = Some (Downloads dates out) ->
  exists first rest, dates = first :: rest.
Proof.
  intros s e output dates out H. unfold range_action in H.
  destruct (parse_date_string s) as [start|]; [|discriminate].
  destruct (parse_date_string e) as [end_|]; [|discriminate].
  destruct (Z.ltb_spec end_ start) as [Hlt|Hle]; [discriminate|].
  destruct (generate_date_range start end_) as [[ds|err]|] eqn:Hg;
    try discriminate.
  injection H as <- _.
  unfold generate_date_range in Hg.
  apply generate_loop_returns in Hg.
  destruct Hg as (n & -> & Hin & Hout). cbn [app].
  destruct n as [|n].
  - change (Z.of_nat 0) with 0 in Hout. lia.
  - rewrite weekly_S. eauto.
Qed.

(** X18: [cmd_download] never calls [batch_download] with an empty
    list of dates. *)
Theorem cmd_download_passes_dates : forall args dates output_file,
  cmd_download parse_date_string args = Some (Downloads dates output_file) ->
  exists first rest, dates = first :: rest.
Proof.
  intros args dates out H. unfold cmd_download in H.
  destruct (cli_single_date args) as [[|c single]|].
  - destruct (cli_dates args) as [[|c listed]|].
    + eapply range_action_dates; eauto.
    + cbv zeta in H.
      destruct (parse_dates _ _ []) as [|d ds]; [discriminate|].
      injection H as <- _. eauto.
    + eapply range_action_dates; eauto.
  - destruct (parse_date_string (c :: single)); [|discriminate].
    injection H as <- _. eauto.
  - destruct (cli_dates args) as [[|c listed]|].
    + eapply range_action_dates; eauto.
    + cbv zeta in H.
      destruct (parse_dates _ _ []) as [|d ds]; [discriminate|].
      injection H as <- _. eauto.
    + eapply range_action_dates; eauto.
Qed.

End Commands.

(** A parser that knows the first two challenges. *)
Definition parse_two (date_str : str) : option datetime :=
  if str_eqb date_str (lit "20051013") then Some first_challenge
  else if str_eqb date_str (lit "20051020")
       then Some (first_challenge + ONE_WEEK)
       else None.

Lemma listed_dates_are_ignored_witness :
  (main parse_two (lit "20051020")
     {| start_date := lit "20051013"; end_date := lit "20051020";
        dates := Some (lit "20051013"); output := collection_path |}
   = Some Returns \/
   main parse_two (lit "20051020")
     {| start_date := lit "20051013"; end_date := lit "20051020";
        dates := Some (lit "20051013"); output := collection_path |}
   = range_action parse_two default_start (lit "20051020")
       collection_path) /\
  (forall other,
     given (Some other) = true ->
     main parse_two (lit "20051020")
       {| start_date := lit "20051013"; end_date := lit "20051020";
          dates := Some other; output := collection_path |}
     = main parse_two (lit "20051020")
         {| start_date := lit "20051013"; end_date := lit "20051020";
            dates := Some (lit "20051013");
            output := collection_path |}).
Proof.
  apply (listed_dates_are_ignored parse_two (lit "20051020")
           {| start_date := lit "20051013"; end_date := lit "20051020";
              dates := Some (lit "20051013");
              output := collection_path |}).
  - reflexivity.
  - discriminate.
Defined.

Lemma cmd_download_passes_dates_witness :
  exists first rest,
    [first_challenge; first_challenge + ONE_WEEK] = first :: rest.
Proof.
  apply (cmd_download_passes_dates parse_two
           {| cli_single_date := None;
              cli_dates := Some (lit "20051013, 20051020,oops");
              cli_start_date := lit "20051013";
              cli_end_date := lit "20051020";
              cli_output := collection_path |}
           [first_challenge; first_challenge + ONE_WEEK]
           collection_path).
  vm_compute. reflexivity.
Defined.

End CliProps.

Module AutoScaleProps.
Import Latex Scales DictProps ScaleProps Samples.
Local Open Scope Q_scope.

Lemma scale_is_clamped_or_default :
  forall images image_path text_height_pt question_id,
  3 # 10 <= calculate_optimal_scale images image_path text_height_pt
              question_id <= 19 # 20 \/
  calculate_optimal_scale images image_path text_height_pt question_id
  = DEFAULT_SCALE.
Proof.
  intros images path h id. unfold calculate_optimal_scale.
  destruct (images path) as [[|w ht]|]; [now right| |now right].
  destruct (ht =? 0)%N; [now right|].
  left. apply round2_bounds, clamp_bounds.
Qed.

(** X19: every scale [calculate_automatic_scales] records lies in
    [0.3, 0.95] or is the default 1.0, and it is recorded under the
    text of the id of a question that has an image path. *)
Theorem automatic_scales_are_clamped_or_default :
  forall images questions key scale,
  dget (calculate_automatic_scales images questions) key = Some scale ->
  (3 # 10 <= scale <= 19 # 20 \/ scale = DEFAULT_SCALE) /\
  exists q image_path,
    In q questions /\
    q_image q = Some image_path /\ image_path <> [] /\
    key = py_str match q_id q with
                 | Some i => i
                 | None => JStr (lit "unknown")
                 end.
Proof.
  intros images questions key scale.
  unfold calculate_automatic_scales.
  assert (Hgen : forall seen auto_scales,
    (forall k v, dget auto_scales k = Some v ->
       (3 # 10 <= v <= 19 # 20 \/ v = DEFAULT_SCALE) /\
       exists q image_path,
         In q seen /\ q_image q = Some image_path /\ image_path <> [] /\
         k = py_str match q_id q with
                    | Some i => i
                    | None => JStr (lit "unknown")
                    end) ->
    forall k v,
      dget (fold_left
              (fun auto_scales q =>
                 let question_id :=
                   match q_id q with
                   | Some i => i
                   | None => JStr (lit "unknown")
                   end in
                 match q_image q with
                 | Some ((_ :: _) as image_path) =>
                     let has_answer :=
                       match q_answer q with
                       | Some _ => true
                       | None => false
                       end in
                     let text_height_pt :=
                       estimate_text_height q has_answer in
                     let scale :=
                       calculate_optimal_scale images image_path
                         text_height_pt question_id in
                     dset (py_str question_id) scale auto_scales
                 | _ => auto_scales
                 end) questions auto_scales) k = Some v ->
      (3 # 10 <= v <= 19 # 20 \/ v = DEFAULT_SCALE) /\
      exists q image_path,
        In q (seen ++ questions) /\
        q_image q = Some image_path /\ image_path <> [] /\
        k = py_str match q_id q with
                   | Some i => i
                   | None => JStr (lit "unknown")
                   end).
  { induction questions as [|q rest IH]; intros seen auto Hinv k v Hk.
    - cbn in Hk. rewrite app_nil_r. now apply Hinv.
    - cbn [fold_left] in Hk.
      replace (seen ++ q :: rest) with ((seen ++ [q]) ++ rest)
        by (rewrite <- app_assoc; reflexivity).
      eapply IH; [|exact Hk].
      intros k' v' Hk'. cbv zeta in Hk'.
      assert (Hold : dget auto k' = Some v' ->
                (3 # 10 <= v' <= 19 # 20 \/ v' = DEFAULT_SCALE) /\
                exists q0 image_path,
                  In q0 (seen ++ [q]) /\ q_image q0 = Some image_path /\
                  image_path <> [] /\
                  k' = py_str match q_id q0 with
                              | Some i => i
                              | None => JStr (lit "unknown")
                              end).
      { intros Hget. destruct (Hinv _ _ Hget) as [Hv (q0 & p & Hq0 & Hrest)].
        split; [exact Hv|]. exists q0, p.
        split; [apply in_or_app; now left|exact Hrest]. }
      destruct (q_image q) as [[|c path]|] eqn:Himg; try (now apply Hold).
      match type of Hk' with
      | dget (dset ?key ?val auto) k' = _ =>
          destruct (str_eq_dec k' key) as [->|Hne];
            [ rewrite dget_dset_same in Hk'; injection Hk' as <-
            | rewrite dget_dset_other in Hk' by exact Hne; now apply Hold ]
      end.
      split; [apply scale_is_clamped_or_default|].
      exists q, (c :: path).
      split; [apply in_or_app; right; now left|].
      split; [exact Himg|]. split; [discriminate|reflexivity]. }
  intros H. apply (Hgen [] [] ); [intros k v Hk; discriminate Hk|exact H].
Qed.

(** A question with an image of 800 by 600 pixels. *)
Definition pictured_question : question :=
  {| q_id := Some (JStr (lit "20051013"));
     q_date := Some (lit "October 13,2005");
     q_question := Some (lit "What is the diagnosis?");
     q_options := Some sample_options;
     q_image := Some (lit "images/nejm_20051013.jpg");
     q_answer := None |}.

Lemma automatic_scales_are_clamped_or_default_witness :
  (3 # 10 <= 95 # 100 <= 19 # 20 \/ 95 # 100 = DEFAULT_SCALE) /\
  exists q image_path,
    In q [pictured_question] /\
    q_image q = Some image_path /\ image_path <> [] /\
    lit "20051013" = py_str match q_id q with
                            | Some i => i
                            | None => JStr (lit "unknown")
                            end.
Proof.
  apply (automatic_scales_are_clamped_or_default
           (fun _ => Some (Picture 800 600)) [pictured_question]
           (lit "20051013") (95 # 100)).
  vm_compute. reflexivity.
Defined.

End AutoScaleProps.

Module CaptionProps.
Import Captions.

Lemma any_response_first_response : forall images question_id,
  any_response images question_id
  = match first_response images question_id with
    | inl (Some _) => inl true
    | inl None => inl false
    | inr e => inr e
    end /\
  match first_response images question_id with
  | inl (Some response) => truthy response = true
  | _ => True
  end.
Proof.
  induction images as [|image rest IH]; intros q.
  - split; [reflexivity|exact I].
  - cbn [any_response first_response].
    destruct image as [| | | | |fields]; try (split; [reflexivity|exact I]).
    destruct (match dict_get fields (lit "id") with
              | JStr s => str_eqb s q
              | _ => false
              end); cbn [andb]; [|apply IH].
    destruct (truthy (dict_get fields (lit "response"))) eqn:Ht;
      [split; [reflexivity|exact Ht]|apply IH].
Qed.

(** X20: [caption_exists_for_image] says yes exactly when
    [get_existing_caption] returns a response, which is then truthy;
    and the two fail on the same stored data. *)
Theorem caption_exists_iff_caption_found : forall captions_data question_id,
  caption_exists_for_image captions_data question_id
  = match get_existing_caption captions_data question_id with
    | inl (Some _) => inl true
    | inl None => inl false
    | inr e => inr e
    end /\
  match get_existing_caption captions_data question_id with
  | inl (Some response) => truthy response = true
  | _ => True
  end.
Proof.
  intros d q. unfold caption_exists_for_image, get_existing_caption.
  destruct (stored_images d) as [images|e]; [|split; [reflexivity|exact I]].
  apply any_response_first_response.
Qed.

End CaptionProps.

Module DocumentProps.
Import Latex DictProps RenderProps EscapeProps Samples.








End DocumentProps.
